(** * run_stockfish_analysis.py: the standalone Stockfish mistake-analysis script

    A shallow embedding of [.github/analysis/run_stockfish_analysis.py] and the
    properties of its fetch / filter / analyse / save pipeline.

    The script is sequential glue around two collaborators ([ChessService],
    [AnalyticsService]) and a handful of library calls.  Its effects (console
    output, collaborator calls, the file write) are recorded as a trace of
    events; exceptions are the left summand of the result.  Everything the
    script cannot decide on its own (what the collaborators return, the local
    time zone, the clock, the file system) is a field of the environment
    record [env].

    Layout: Python values and exceptions; the effect monad [M]; the part of
    [datetime] the script uses; the configuration and the environment; the
    script itself, phase by phase, up to the [__main__] guard ([script]);
    readings of a trace; sample environments; then the properties, from the
    date filter and the fetch loop up to whole runs. *)

From Stdlib Require Import ZArith List String Ascii Lia PrimFloat.
From stdpp Require Import base option list strings gmap pretty.
From Equations Require Import Equations.

Set Warnings "-register-all".
Local Open Scope Z_scope.

(** ** Python values and exceptions *)

(** An exception instance: its class and what [str(e)] gives.  Only
    subclasses of [Exception] are modelled, which is what both handlers of
    the script catch. *)
Record exn : Type := Exn { exn_class : string; exn_str : string }.

(** The JSON-like values that travel through the script: game records are
    dicts, the analysis result is a dict of dicts. *)
Inductive value : Type :=
  | VNone
  | VBool (b : bool)
  | VInt (z : Z)
  | VFloat (f : float)
  | VStr (s : string)
  | VList (l : list value)
  | VDict (d : gmap string value).

Definition AttributeError (what : string) : exn := Exn "AttributeError" what.
Definition TypeError (what : string) : exn := Exn "TypeError" what.
Definition ValueError (what : string) : exn := Exn "ValueError" what.
Definition KeyError (what : string) : exn := Exn "KeyError" what.

(** [d.get(key, default)]: only dicts have the method. *)
Definition dict_get (v : value) (key : string) (dflt : value) : exn + value :=
  match v with
  | VDict d => inr (default dflt (d !! key))
  | _ => inl (AttributeError "object has no attribute 'get'")
  end.

(** [d[key]] on a value already known to answer [.get]. *)
Definition subscript (v : value) (key : string) : exn + value :=
  match v with
  | VDict d =>
      match d !! key with
      | Some x => inr x
      | None => inl (KeyError key)
      end
  | _ => inl (TypeError "object is not subscriptable")
  end.

(** [v > 0]. *)
Definition gt_zero (v : value) : exn + bool :=
  match v with
  | VBool b => inr b
  | VInt z => inr (0 <? z)
  | VFloat f => inr (PrimFloat.ltb PrimFloat.zero f)
  | _ => inl (TypeError "'>' not supported between these operands")
  end.

(** ** Effects: a trace of events and a possible exception *)

Inductive event : Type :=
  | EPrint (line : string)
  | ENewChessService
  | ENewAnalyticsService (stockfish_path : string) (engine_depth : Z)
      (engine_enabled : bool)
  | EFetch (username : string) (y m : Z)
  | EAggregate (games_data : list value) (username : string)
  | EOpenW (path : string)
  | EJsonDump (path : string) (data : value)
  | ETraceback (e : exn).

Definition M (A : Type) : Type := list event * (exn + A).

Definition ret {A} (a : A) : M A := ([], inr a).
Definition raise {A} (e : exn) : M A := ([], inl e).
Definition emit (ev : event) : M unit := ([ev], inr tt).

Definition bind {A B} (m : M A) (k : A -> M B) : M B :=
  match m with
  | (t, inl e) => (t, inl e)
  | (t, inr a) => let '(t', r) := k a in (t ++ t', r)
  end.

(** [try: m  except Exception as e: h e] *)
Definition catch {A} (m : M A) (h : exn -> M A) : M A :=
  match m with
  | (t, inl e) => let '(t', r) := h e in (t ++ t', r)
  | (t, inr a) => (t, inr a)
  end.

(** A pure computation that may raise. *)
Definition lift {A} (r : exn + A) : M A := ([], r).

(** A collaborator or library call: the call is recorded, then it returns
    or raises. *)
Definition call {A} (ev : event) (r : exn + A) : M A := ([ev], r).

Declare Scope M_scope.
Delimit Scope M_scope with M.
Notation "x <- m ;; k" := (bind m (fun x => k))
  (at level 100, m at next level, right associativity) : M_scope.
Notation "m ;;; k" := (bind m (fun _ => k))
  (at level 100, right associativity) : M_scope.

Definition print (line : string) : M unit := emit (EPrint line).

Definition trace {A} (m : M A) : list event := fst m.
Definition result {A} (m : M A) : exn + A := snd m.

(** ** Strings *)

Definition nl : string := String "010" EmptyString.

Fixpoint str_repeat (s : string) (n : nat) : string :=
  match n with
  | O => EmptyString
  | S n' => s +:+ str_repeat s n'
  end.

(** [%0nd] for a non-negative number. *)
Definition zero_pad (n : nat) (z : Z) : string :=
  let s := pretty z in
  str_repeat "0" (n - String.length s) +:+ s.

Definition upper_ascii (c : ascii) : ascii :=
  let n := nat_of_ascii c in
  if ((97 <=? n) && (n <=? 122))%nat then ascii_of_nat (n - 32) else c.

Fixpoint upper (s : string) : string :=
  match s with
  | EmptyString => EmptyString
  | String c s' => String (upper_ascii c) (upper s')
  end.

(** ** The [datetime] class, as far as the script uses it *)

Module datetime.

Record t : Type := mk {
  year : Z; month : Z; day : Z;
  hour : Z; minute : Z; second : Z; microsecond : Z
}.

Definition MINYEAR : Z := 1.
Definition MAXYEAR : Z := 9999.

Definition is_leap (y : Z) : bool :=
  (y mod 4 =? 0) && (negb (y mod 100 =? 0) || (y mod 400 =? 0)).

Definition days_in_month (y m : Z) : Z :=
  if m =? 2 then (if is_leap y then 29 else 28)
  else if (m =? 4) || (m =? 6) || (m =? 9) || (m =? 11) then 30
  else 31.

Definition check_date_fields (y m d : Z) : option exn :=
  if negb ((MINYEAR <=? y) && (y <=? MAXYEAR))
  then Some (ValueError "year is out of range")
  else if negb ((1 <=? m) && (m <=? 12))
  then Some (ValueError "month must be in 1..12")
  else if negb ((1 <=? d) && (d <=? days_in_month y m))
  then Some (ValueError "day is out of range for month")
  else None.

Definition check_time_fields (h mi s us : Z) : option exn :=
  if negb ((0 <=? h) && (h <=? 23))
  then Some (ValueError "hour must be in 0..23")
  else if negb ((0 <=? mi) && (mi <=? 59))
  then Some (ValueError "minute must be in 0..59")
  else if negb ((0 <=? s) && (s <=? 59))
  then Some (ValueError "second must be in 0..59")
  else if negb ((0 <=? us) && (us <=? 999999))
  then Some (ValueError "microsecond must be in 0..999999")
  else None.

(** The constructor [datetime(y, m, d, h, mi, s, us)]: it validates. *)
Definition new (y m d h mi s us : Z) : exn + t :=
  match check_date_fields y m d with
  | Some e => inl e
  | None =>
      match check_time_fields h mi s us with
      | Some e => inl e
      | None => inr (mk y m d h mi s us)
      end
  end.

(** [self.replace(year=y, month=m)]: a new object through the
    constructor, the other fields kept. *)
Definition replace (self : t) (y m : Z) : exn + t :=
  new y m (day self) (hour self) (minute self) (second self)
    (microsecond self).

(** Comparison is that of the field tuples. *)
Definition fields (d : t) : list Z :=
  [year d; month d; day d; hour d; minute d; second d; microsecond d].

Fixpoint lex_compare (a b : list Z) : comparison :=
  match a, b with
  | [], [] => Eq
  | [], _ :: _ => Lt
  | _ :: _, [] => Gt
  | x :: a', y :: b' =>
      match x ?= y with
      | Eq => lex_compare a' b'
      | c => c
      end
  end.

Definition le (d1 d2 : t) : bool :=
  match lex_compare (fields d1) (fields d2) with
  | Gt => false
  | _ => true
  end.

(** Proleptic Gregorian date of a day count from 1970-01-01. *)
Definition civil_from_days (days : Z) : Z * Z * Z :=
  let z := days + 719468 in
  let era := z / 146097 in
  let doe := z - era * 146097 in
  let yoe := (doe - doe / 1460 + doe / 36524 - doe / 146096) / 365 in
  let doy := doe - (365 * yoe + yoe / 4 - yoe / 100) in
  let mp := (5 * doy + 2) / 153 in
  let d := doy - (153 * mp + 2) / 5 + 1 in
  let m := if mp <? 10 then mp + 3 else mp - 9 in
  let y := yoe + era * 400 + (if m <=? 2 then 1 else 0) in
  (y, m, d).

(** Local wall-clock time [secs] seconds (and [us] microseconds) after
    the epoch, where the zone is [utcoffset] seconds east of UTC at that
    instant. *)
Definition of_epoch (utcoffset : Z -> Z) (secs us : Z) : exn + t :=
  let l := secs + utcoffset secs in
  let '(y, m, d) := civil_from_days (l / 86400) in
  let r := l mod 86400 in
  if (MINYEAR <=? y) && (y <=? MAXYEAR)
  then inr (mk y m d (r / 3600) (r mod 3600 / 60) (r mod 60) us)
  else inl (ValueError "year is out of range").

(** [datetime.fromtimestamp(v)], naive local time.  Integers (and bools,
    which are integers) are converted here; a float is first split into
    seconds and microseconds by the platform's rounding [split_float]. *)
Definition fromtimestamp (utcoffset : Z -> Z)
    (split_float : float -> exn + Z * Z) (v : value) : exn + t :=
  match v with
  | VInt z => of_epoch utcoffset z 0
  | VBool b => of_epoch utcoffset (if b then 1 else 0) 0
  | VFloat f =>
      match split_float f with
      | inl e => inl e
      | inr (secs, us) => of_epoch utcoffset secs us
      end
  | _ => inl (TypeError "an integer is required")
  end.

(** *** [strptime(s, '%Y-%m-%d')] *)

Definition digit (c : ascii) : option Z :=
  let n := nat_of_ascii c in
  if ((48 <=? n) && (n <=? 57))%nat then Some (Z.of_nat (n - 48)) else None.

Definition is_dash (c : ascii) : bool := (nat_of_ascii c =? 45)%nat.
Definition is_space (c : ascii) : bool := (nat_of_ascii c =? 32)%nat.

(** [%Y] is [\d\d\d\d]. *)
Definition scan_year (s : list ascii) : option (Z * list ascii) :=
  match s with
  | a :: b :: c :: d :: rest =>
      match digit a, digit b, digit c, digit d with
      | Some a, Some b, Some c, Some d =>
          Some (1000 * a + 100 * b + 10 * c + d, rest)
      | _, _, _, _ => None
      end
  | _ => None
  end.

(** Two characters [c1 c2] read as the pattern [lo-hi] then [lo2-hi2]. *)
Definition two_digits (lo hi lo2 hi2 : Z) (s : list ascii)
    : option (Z * list ascii) :=
  match s with
  | c1 :: c2 :: rest =>
      match digit c1, digit c2 with
      | Some a, Some b =>
          if (lo <=? a) && (a <=? hi) && (lo2 <=? b) && (b <=? hi2)
          then Some (10 * a + b, rest) else None
      | _, _ => None
      end
  | _ => None
  end.

Definition one_digit (s : list ascii) : option (Z * list ascii) :=
  match s with
  | c :: rest =>
      match digit c with
      | Some a => if 1 <=? a then Some (a, rest) else None
      | None => None
      end
  | _ => None
  end.

Definition first_of {A} (alts : list (option A)) : option A :=
  List.fold_right (fun a rest => match a with Some x => Some x | None => rest end)
    None alts.

(** [%m] is [1[0-2]|0[1-9]|[1-9]], the first alternative that matches. *)
Definition scan_month (s : list ascii) : option (Z * list ascii) :=
  first_of [two_digits 1 1 0 2 s; two_digits 0 0 1 9 s; one_digit s].

(** [%d] is [3[01]|[12]\d|0[1-9]|[1-9]| [1-9]]. *)
Definition scan_day (s : list ascii) : option (Z * list ascii) :=
  first_of [two_digits 3 3 0 1 s; two_digits 1 2 0 9 s; two_digits 0 0 1 9 s;
            one_digit s;
            match s with
            | c :: rest => if is_space c then one_digit rest else None
            | [] => None
            end].

Definition expect_dash (s : list ascii) : option (list ascii) :=
  match s with
  | c :: rest => if is_dash c then Some rest else None
  | [] => None
  end.

Definition strptime (s : string) : exn + t :=
  let no_match := ValueError "time data does not match format '%Y-%m-%d'" in
  match scan_year (list_ascii_of_string s) with
  | None => inl no_match
  | Some (y, s1) =>
      match expect_dash s1 with
      | None => inl no_match
      | Some s2 =>
          match scan_month s2 with
          | None => inl no_match
          | Some (m, s3) =>
              match expect_dash s3 with
              | None => inl no_match
              | Some s4 =>
                  match scan_day s4 with
                  | None => inl no_match
                  | Some (d, []) => new y m d 0 0 0 0
                  | Some (_, _ :: _) =>
                      inl (ValueError "unconverted data remains")
                  end
              end
          end
      end
  end.

(** [self.strftime('%Y-%m')] *)
Definition strftime_Y_m (self : t) : string :=
  zero_pad 4 (year self) +:+ "-" +:+ zero_pad 2 (month self).

(** [self.isoformat()] *)
Definition isoformat (self : t) : string :=
  zero_pad 4 (year self) +:+ "-" +:+ zero_pad 2 (month self) +:+ "-"
  +:+ zero_pad 2 (day self) +:+ "T" +:+ zero_pad 2 (hour self) +:+ ":"
  +:+ zero_pad 2 (minute self) +:+ ":" +:+ zero_pad 2 (second self)
  +:+ (if microsecond self =? 0 then EmptyString
       else "." +:+ zero_pad 6 (microsecond self)).

End datetime.

(** ** Configuration and environment *)

(** The module-level constants of the script. *)
Record config : Type := {
  USERNAME : string;
  START_DATE : string;
  END_DATE : string;
  TIMEZONE : string;
  STOCKFISH_PATH : string
}.

(** The values the repository ships. *)
Definition shipped_config : config := {|
  USERNAME := "jay_fh";
  START_DATE := "2026-01-01";
  END_DATE := "2026-01-31";
  TIMEZONE := "Bangkok";
  STOCKFISH_PATH :=
    "D:\Project\chesstic_v2\stockfish\stockfish\stockfish-windows-x86-64-avx2.exe"
|}.

(** What the script does not decide: the two collaborators, the local time
    zone and clock, the file system, and the formatting built-ins applied to
    the analysis result.  Collaborators are taken to return values without
    modifying their arguments. *)
Record env : Type := {
  (** [ChessService()] and [AnalyticsService(...)]: [Some e] when the
      constructor raises. *)
  chess_service_init : option exn;
  analytics_service_init : string -> Z -> bool -> option exn;
  (** [chess_service.get_games_by_month(username, year, month)] *)
  get_games_by_month : string -> Z -> Z -> exn + list value;
  (** [analytics_service.mistake_analyzer.aggregate_mistake_analysis(
        games_data, username)] *)
  aggregate_mistake_analysis : list value -> string -> exn + value;
  (** Seconds east of UTC of the local zone at an instant. *)
  utcoffset : Z -> Z;
  (** The platform's split of a float time stamp into seconds and
      microseconds. *)
  split_float : float -> exn + Z * Z;
  (** [datetime.now()] at the time the output is prepared. *)
  now : datetime.t;
  (** [os.path.dirname(__file__)] and [os.path.join]. *)
  script_dir : string;
  path_join : string -> string -> string;
  (** [open(path, 'w', encoding='utf-8')]: [Some e] when it raises. *)
  open_w : string -> option exn;
  (** [json.dump(data, f, indent=2, default=str)]: [Some e] when it
      raises. *)
  json_dump : string -> value -> option exn;
  (** [str(v)] and [format(v, '.1f')]. *)
  py_str : value -> string;
  format_1f : value -> exn + string
}.

(** An effect that either happens (and is recorded) or raises. *)
Definition effect (ev : event) (failure : option exn) : M unit :=
  match failure with
  | Some e => raise e
  | None => emit ev
  end.

(** A constructor call: recorded, then it may raise. *)
Definition construct (ev : event) (failure : option exn) : M unit :=
  call ev (match failure with Some e => inl e | None => inr tt end).

(** Case analysis that keeps the equation, for the loop's guard. *)
Definition inspect {A : Type} (x : A) : {y : A | x = y} :=
  exist _ x eq_refl.

Local Open Scope M_scope.

Section Script.

Variable e : env.
Variable cfg : config.

(** *** Lines 59-63: the date filter of one month's games *)

Definition game_date (game : value) : exn + datetime.t :=
  match dict_get game "end_time" (VInt 0) with
  | inl ex => inl ex
  | inr ts => datetime.fromtimestamp (utcoffset e) (split_float e) ts
  end.

Definition in_range (start end_ game_date : datetime.t) : bool :=
  datetime.le start game_date && datetime.le game_date end_.

Fixpoint filter_games (start end_ : datetime.t) (games : list value)
    (filtered_games : list value) : exn + list value :=
  match games with
  | [] => inr filtered_games
  | game :: rest =>
      match game_date game with
      | inl ex => inl ex
      | inr d =>
          filter_games start end_ rest
            (if in_range start end_ d
             then filtered_games ++ [game] else filtered_games)
      end
  end.

(** *** Lines 56-68: one iteration's [try]/[except] *)

Definition fetch_month (start end_ current : datetime.t)
    (all_games : list value) : M (list value) :=
  catch
    (games <- call (EFetch (USERNAME cfg) (datetime.year current)
                      (datetime.month current))
                (get_games_by_month e (USERNAME cfg) (datetime.year current)
                   (datetime.month current)) ;;
     filtered_games <- lift (filter_games start end_ games []) ;;
     let all_games := all_games ++ filtered_games in
     print ("   ✓ " +:+ datetime.strftime_Y_m current +:+ ": "
            +:+ pretty (length filtered_games) +:+ " games") ;;;
     ret all_games)
    (fun ex =>
       print ("   ✗ " +:+ datetime.strftime_Y_m current +:+ ": "
              +:+ exn_str ex) ;;;
       ret all_games).

(** *** Lines 70-73: the step to the next month *)

Definition next_month (current : datetime.t) : exn + datetime.t :=
  if datetime.month current =? 12
  then datetime.replace current (datetime.year current + 1) 1
  else datetime.replace current (datetime.year current)
         (datetime.month current + 1).

(** *** Lines 55-73: the [while current <= end] loop

    The recursion is on the number of months [current] can still advance
    before its year passes that of [end_].  The step of lines 70-73 is pure,
    so its outcome is inspected ahead of the month's body to give the
    recursive call its justification; the events still come in the order of
    the source: the body first, then the step's exception if it raises.
    [fetch_loop_while] below states the loop in the shape of the source. *)

Definition months_left (end_ current : datetime.t) : nat :=
  Z.to_nat (12 * (datetime.year end_ - datetime.year current) + 13
            - datetime.month current).

Equations? fetch_loop (start end_ current : datetime.t)
    (all_games : list value) : M (list value)
    by wf (months_left end_ current) lt :=
  fetch_loop start end_ current all_games
      with inspect (datetime.le current end_) := {
    | exist _ false _ => ret all_games
    | exist _ true Hle with inspect (next_month current) := {
        | exist _ (inl ex) _ =>
            fetch_month start end_ current all_games ;;; raise ex
        | exist _ (inr current') Hnext =>
            all_games <- fetch_month start end_ current all_games ;;
            fetch_loop start end_ current' all_games
      }
  }.
Proof.
  clear fetch_loop.
  assert (Hy : datetime.year current <= datetime.year end_).
  { revert Hle. unfold datetime.le, datetime.fields. cbn [datetime.lex_compare].
    destruct (datetime.year current ?= datetime.year end_) eqn:Hc;
      [apply Z.compare_eq in Hc; lia
      |rewrite Z.compare_lt_iff in Hc; lia
      |discriminate]. }
  revert Hnext. unfold next_month, datetime.replace, datetime.new,
    datetime.check_date_fields.
  destruct (datetime.month current =? 12) eqn:Hm;
    repeat (match goal with
            | |- context [if negb ?b then _ else _] =>
                let Hb := fresh "Hb" in destruct b eqn:Hb; cbn [negb]
            | |- context [match datetime.check_time_fields ?a ?b ?c ?d with _ => _ end] =>
                destruct (datetime.check_time_fields a b c d)
            end); try discriminate;
    intros [= <-]; unfold months_left; cbn [datetime.year datetime.month];
    lia.
Qed.

(** *** Lines 33-45: banner and services *)

Definition banner : string := str_repeat "=" 60.

Definition initialize : M unit :=
  print banner ;;;
  print "STOCKFISH MISTAKE ANALYSIS (Standalone Script)" ;;;
  print banner ;;;
  print (nl +:+ "1. Initializing services...") ;;;
  construct ENewChessService (chess_service_init e) ;;;
  construct (ENewAnalyticsService (STOCKFISH_PATH cfg) 12 true)
    (analytics_service_init e (STOCKFISH_PATH cfg) 12 true) ;;;
  print "   ✓ Services initialized".

(** *** Lines 47-75: fetch and filter; yields [(start, end, all_games)] *)

Definition fetch_games : M (list value) :=
  print (nl +:+ "2. Fetching games for " +:+ USERNAME cfg +:+ " from "
         +:+ START_DATE cfg +:+ " to " +:+ END_DATE cfg +:+ "...") ;;;
  start <- lift (datetime.strptime (START_DATE cfg)) ;;
  end_ <- lift (datetime.strptime (END_DATE cfg)) ;;
  all_games <- fetch_loop start end_ start [] ;;
  print (nl +:+ "   Total games fetched: " +:+ pretty (length all_games)) ;;;
  ret all_games.

(** *** Lines 81-93: the analysis call and its headline *)

Definition run_analysis (all_games : list value) : M value :=
  print (nl +:+ "3. Running Stockfish mistake analysis...") ;;;
  print "   This may take a few minutes..." ;;;
  mistake_analysis <-
    call (EAggregate all_games (USERNAME cfg))
      (aggregate_mistake_analysis e all_games (USERNAME cfg)) ;;
  sample_info <- lift (dict_get mistake_analysis "sample_info" (VDict ∅)) ;;
  print "   ✓ Analysis complete!" ;;;
  analyzed_games <- lift (dict_get sample_info "analyzed_games" (VInt 0)) ;;
  print ("   Games analyzed: " +:+ py_str e analyzed_games) ;;;
  sample_percentage <-
    lift (dict_get sample_info "sample_percentage" (VInt 0)) ;;
  percentage <- lift (format_1f e sample_percentage) ;;
  print ("   Sample: " +:+ percentage +:+ "%") ;;;
  ret mistake_analysis.

(** *** Lines 95-105: the per-stage summary *)

Definition show_field (stage_data : value) (label key : string) : M unit :=
  v <- lift (subscript stage_data key) ;;
  print ("     " +:+ label +:+ ": " +:+ py_str e v).

Definition show_stage (mistake_analysis : value) (stage : string) : M unit :=
  stage_data <- lift (dict_get mistake_analysis stage (VDict ∅)) ;;
  total_moves <- lift (dict_get stage_data "total_moves" (VInt 0)) ;;
  positive <- lift (gt_zero total_moves) ;;
  if positive : bool then
    print (nl +:+ "   " +:+ upper stage +:+ ":") ;;;
    show_field stage_data "Moves analyzed" "total_moves" ;;;
    show_field stage_data "Inaccuracies" "inaccuracies" ;;;
    show_field stage_data "Mistakes" "mistakes" ;;;
    show_field stage_data "Blunders" "blunders" ;;;
    show_field stage_data "Avg CP Loss" "avg_cp_loss"
  else ret tt.

Fixpoint for_each {A} (body : A -> M unit) (l : list A) : M unit :=
  match l with
  | [] => ret tt
  | x :: l' => body x ;;; for_each body l'
  end.

Definition display_summary (mistake_analysis : value) : M unit :=
  print (nl +:+ "4. Analysis Summary:") ;;;
  for_each (show_stage mistake_analysis) ["early"; "middle"; "endgame"].

(** *** Lines 107-142: the output object and the file write *)

Definition output_path : string :=
  path_join e (script_dir e)
    ("stockfish_analysis_" +:+ USERNAME cfg +:+ "_" +:+ START_DATE cfg
     +:+ "_to_" +:+ END_DATE cfg +:+ ".json").

Definition metadata (all_games : list value) : gmap string value :=
  <["username" := VStr (USERNAME cfg)]>
  (<["start_date" := VStr (START_DATE cfg)]>
  (<["end_date" := VStr (END_DATE cfg)]>
  (<["timezone" := VStr (TIMEZONE cfg)]>
  (<["analysis_date" := VStr (datetime.isoformat (now e))]>
  (<["total_games" := VInt (Z.of_nat (length all_games))]> ∅))))).

Definition output_data (mistake_analysis : value) (all_games : list value)
    : gmap string value :=
  <["metadata" := VDict (metadata all_games)]>
  (<["mistake_analysis" := mistake_analysis]>
  (<["games" := VList all_games]> ∅)).

Definition save (mistake_analysis : value) (all_games : list value)
    : M string :=
  let output_file := output_path in
  print (nl +:+ "5. Saving results to file...") ;;;
  let data := VDict (output_data mistake_analysis all_games) in
  effect (EOpenW output_file) (open_w e output_file) ;;;
  effect (EJsonDump output_file data) (json_dump e output_file data) ;;;
  print ("   ✓ Results saved to: " +:+ output_file) ;;;
  print (nl +:+ banner) ;;;
  print "✓ ANALYSIS COMPLETE!" ;;;
  print banner ;;;
  print (nl +:+ "Next steps:") ;;;
  print "1. Open your Jupyter notebook" ;;;
  print "2. Run the 'Load Stockfish Analysis Results' cell" ;;;
  print "3. Explore the mistake data in DataFrame format" ;;;
  ret output_file.

(** *** Lines 32-142: [main()]; [None] is the bare [return] of line 79 *)

(** Lines 81-142, what follows the [if not all_games] guard. *)
Definition analyse_and_save (all_games : list value) : M (option string) :=
  mistake_analysis <- run_analysis all_games ;;
  display_summary mistake_analysis ;;;
  output_file <- save mistake_analysis all_games ;;
  ret (Some output_file).

Definition main : M (option string) :=
  initialize ;;;
  all_games <- fetch_games ;;
  match all_games with
  | [] =>
      print (nl +:+ "✗ No games found. Exiting.") ;;;
      ret None
  | _ :: _ => analyse_and_save all_games
  end.

(** *** Lines 145-153: the [__main__] guard

    The run's trace and the exit status of the process: [sys.exit(1)] in
    the handler, 0 when the [try] block completes. *)

Definition script : list event * Z :=
  match main with
  | (t, inr output_file) =>
      (t ++ [EPrint (nl +:+ "Success! File saved at: "
                     +:+ default "None" output_file)], 0)
  | (t, inl ex) =>
      (t ++ [EPrint (nl +:+ "✗ Error: " +:+ exn_str ex); ETraceback ex], 1)
  end.

End Script.

(** ** Reading a trace *)

Definition fetch_of (ev : event) : option (Z * Z) :=
  match ev with EFetch _ y m => Some (y, m) | _ => None end.

Definition aggregate_of (ev : event) : option (list value * string) :=
  match ev with EAggregate games u => Some (games, u) | _ => None end.

Definition dump_of (ev : event) : option (string * value) :=
  match ev with EJsonDump path data => Some (path, data) | _ => None end.

Definition open_of (ev : event) : option string :=
  match ev with EOpenW path => Some path | _ => None end.

Definition print_of (ev : event) : option string :=
  match ev with EPrint line => Some line | _ => None end.

(** The fetch attempts of a trace, in order, as (year, month). *)
Definition fetches (t : list event) : list (Z * Z) := omap fetch_of t.
(** The calls of the mistake-aggregation operation. *)
Definition aggregate_calls (t : list event) : list (list value * string) :=
  omap aggregate_of t.
(** Files opened for writing, and objects dumped. *)
Definition opened (t : list event) : list string := omap open_of t.
Definition dumped (t : list event) : list (string * value) := omap dump_of t.
Definition printed (t : list event) : list string := omap print_of t.

Definition is_print (ev : event) : bool :=
  match ev with EPrint _ => true | _ => false end.

(** What a run does besides printing: constructor and collaborator calls,
    file effects, the traceback. *)
Definition effects (t : list event) : list event :=
  List.filter (fun ev => negb (is_print ev)) t.

(** ** Derived notions used in the statements *)

(** What one month adds to [all_games]: its in-range games when the fetch
    and the filter both complete, nothing when either raises. *)
Definition month_games (e : env) (cfg : config) (start end_ : datetime.t)
    (ym : Z * Z) : list value :=
  match get_games_by_month e (USERNAME cfg) ym.1 ym.2 with
  | inl _ => []
  | inr games =>
      match filter_games e start end_ games [] with
      | inl _ => []
      | inr filtered_games => filtered_games
      end
  end.

(** The end time of every record of the list converts to a date. *)
Definition all_dated (e : env) (games : list value) : Prop :=
  Forall (fun game => exists d, game_date e game = inr d) games.

(** [n] consecutive calendar months from month [m] of year [y]. *)
Fixpoint month_range (y m : Z) (n : nat) : list (Z * Z) :=
  match n with
  | O => []
  | S n' =>
      (y, m) :: (if m =? 12 then month_range (y + 1) 1 n'
                 else month_range y (m + 1) n')
  end.

(** Months from that of [start] through that of [end_], inclusive. *)
Definition months_between (start end_ : datetime.t) : list (Z * Z) :=
  month_range (datetime.year start) (datetime.month start)
    (Z.to_nat (12 * (datetime.year end_ - datetime.year start)
               + datetime.month end_ - datetime.month start + 1)).

(** The four ways [main] can go. *)
Inductive main_path (e : env) (cfg : config) : M (option string) -> Prop :=
  | init_raises t ex :
      initialize e cfg = (t, inl ex) ->
      main_path e cfg (t, inl ex)
  | fetch_raises t0 t1 ex :
      initialize e cfg = (t0, inr tt) ->
      fetch_games e cfg = (t1, inl ex) ->
      main_path e cfg (t0 ++ t1, inl ex)
  | no_games t0 t1 :
      initialize e cfg = (t0, inr tt) ->
      fetch_games e cfg = (t1, inr []) ->
      main_path e cfg
        (t0 ++ t1 ++ [EPrint (nl +:+ "✗ No games found. Exiting.")],
         inr None)
  | some_games t0 t1 game games t2 r :
      initialize e cfg = (t0, inr tt) ->
      fetch_games e cfg = (t1, inr (game :: games)) ->
      analyse_and_save e cfg (game :: games) = (t2, r) ->
      main_path e cfg (t0 ++ t1 ++ t2, r).

(** The claim of C3 read literally: every record returned by a fetch of the
    run is accumulated exactly when its date is in range. *)
Definition filter_exact_for_every_record : Prop :=
  forall e cfg start end_ t all_games y m games game,
    datetime.strptime (START_DATE cfg) = inr start ->
    datetime.strptime (END_DATE cfg) = inr end_ ->
    fetch_games e cfg = (t, inr all_games) ->
    (y, m) ∈ fetches t ->
    get_games_by_month e (USERNAME cfg) y m = inr games ->
    game ∈ games ->
    game ∈ all_games
    <-> exists d, game_date e game = inr d /\ in_range start end_ d = true.

(** Whether a record passes the date test, for a record whose end time
    converts. *)
Definition game_in_range (e : env) (start end_ : datetime.t) (game : value)
    : bool :=
  match game_date e game with
  | inr d => in_range start end_ d
  | inl _ => false
  end.

(** A stage the summary passes over: absent from the analysis result, or a
    dict whose 'total_moves' is absent or an integer that is not positive. *)
Definition stage_without_moves (analysis : gmap string value) (stage : string)
    : Prop :=
  analysis !! stage = None
  \/ exists stage_data,
       analysis !! stage = Some (VDict stage_data)
       /\ (stage_data !! "total_moves" = None
           \/ exists n, stage_data !! "total_moves" = Some (VInt n) /\ n <= 0).

(** ** Sample environments *)

Definition game_at (end_time : Z) (url : string) : value :=
  VDict (<["end_time" := VInt end_time]> (<["url" := VStr url]> ∅)).

(** A record without the end-time field. *)
Definition game_undated (url : string) : value :=
  VDict (<["url" := VStr url]> ∅).

(** A machine in Bangkok (UTC+7, no daylight saving) with a working disk;
    the collaborators and the disk failures are the arguments. *)
Definition sample_env
    (fetch : string -> Z -> Z -> exn + list value)
    (aggregate : list value -> string -> exn + value)
    (open_failure dump_failure : option exn) : env := {|
  chess_service_init := None;
  analytics_service_init := fun _ _ _ => None;
  get_games_by_month := fetch;
  aggregate_mistake_analysis := aggregate;
  utcoffset := fun _ => 25200;
  split_float := fun _ => inl (ValueError "cannot convert float");
  now := datetime.mk 2026 2 1 9 30 0 0;
  script_dir := "/repo/.github/analysis";
  path_join := fun dir name => dir +:+ "/" +:+ name;
  open_w := fun _ => open_failure;
  json_dump := fun _ _ => dump_failure;
  py_str := fun v => match v with
                     | VInt z => pretty z
                     | VStr s => s
                     | _ => "?"
                     end;
  format_1f := fun v => match v with
                        | VInt z => inr (pretty z +:+ ".0")
                        | _ => inl (TypeError "unsupported format string")
                        end
|}.

(** 2026-01-01 13:46:40 and 2026-01-20 10:00:00 in Bangkok. *)
Definition game_a : value := game_at 1767250000 "https://www.chess.com/game/live/1".
Definition game_b : value := game_at 1768878000 "https://www.chess.com/game/live/2".
(** An end time given in milliseconds: far beyond year 9999. *)
Definition game_ms : value := game_at 1767250000000 "https://www.chess.com/game/live/3".

Definition empty_analysis : value :=
  VDict (<["sample_info" := VDict (<["analyzed_games" := VInt 2]> ∅)]> ∅).

Definition fetch_january (_ : string) (y m : Z) : exn + list value :=
  if (y =? 2026) && (m =? 1) then inr [game_a; game_b] else inr [].

Definition fetch_nothing (_ : string) (_ _ : Z) : exn + list value := inr [].

(** February is unavailable. *)
Definition fetch_february_down (_ : string) (y m : Z) : exn + list value :=
  if (y =? 2026) && (m =? 1) then inr [game_a; game_b]
  else if (y =? 2026) && (m =? 2) then inl (Exn "HTTPError" "503 Service Unavailable")
  else inr [].

(** January holds a record whose end time does not convert. *)
Definition fetch_with_bad_record (_ : string) (y m : Z) : exn + list value :=
  if (y =? 2026) && (m =? 1) then inr [game_a; game_ms] else inr [].

(** January holds a record without end time. *)
Definition fetch_with_undated (_ : string) (y m : Z) : exn + list value :=
  if (y =? 2026) && (m =? 1) then inr [game_a; game_undated "https://www.chess.com/game/live/4"]
  else inr [].

Definition aggregate_ok (_ : list value) (_ : string) : exn + value :=
  inr empty_analysis.

Definition aggregate_crash (_ : list value) (_ : string) : exn + value :=
  inl (Exn "RuntimeError" "engine process died").

(** 2026-01-31 07:00:00 in Bangkok: on the end date, after midnight. *)
Definition game_last_day : value :=
  game_at 1769817600 "https://www.chess.com/game/live/5".



(** The aggregation returns [None]. *)
Definition aggregate_none (_ : list value) (_ : string) : exn + value :=
  inr VNone.

Definition fetch_last_day (_ : string) (y m : Z) : exn + list value :=
  if (y =? 2026) && (m =? 1) then inr [game_a; game_last_day] else inr [].

(** A machine on which the engine binary is missing. *)
Definition env_without_engine : env := {|
  chess_service_init := None;
  analytics_service_init :=
    fun _ _ _ => Some (Exn "FileNotFoundError" "stockfish not found");
  get_games_by_month := fetch_january;
  aggregate_mistake_analysis := aggregate_ok;
  utcoffset := fun _ => 25200;
  split_float := fun _ => inl (ValueError "cannot convert float");
  now := datetime.mk 2026 2 1 9 30 0 0;
  script_dir := "/repo/.github/analysis";
  path_join := fun dir name => dir +:+ "/" +:+ name;
  open_w := fun _ => None;
  json_dump := fun _ _ => None;
  py_str := fun _ => "?";
  format_1f := fun _ => inr "0.0"
|}.

Definition config_for (start_date end_date : string) : config := {|
  USERNAME := "jay_fh";
  START_DATE := start_date;
  END_DATE := end_date;
  TIMEZONE := "Bangkok";
  STOCKFISH_PATH := "stockfish"
|}.

(** * Properties *)

(** ** The effect monad *)

Lemma bind_unfold {A B} (m : M A) (k : A -> M B) :
  bind m k =
  match snd m with
  | inl ex => (fst m, inl ex)
  | inr a => (fst m ++ fst (k a), snd (k a))
  end.
Proof.
  destruct m as [t [ex | a]]; cbn; [reflexivity |].
  destruct (k a); reflexivity.
Qed.

Lemma bind_returns {A B} (m : M A) (k : A -> M B) t a :
  m = (t, inr a) -> bind m k = (t ++ fst (k a), snd (k a)).
Proof. intros ->. rewrite bind_unfold. reflexivity. Qed.

Lemma effects_app t1 t2 : effects (t1 ++ t2) = effects t1 ++ effects t2.
Proof. apply List.filter_app. Qed.

Lemma omap_effects {A} (f : event -> option A) t :
  (forall line, f (EPrint line) = None) ->
  omap f (effects t) = omap f t.
Proof.
  intros Hf. induction t as [| ev t IH]; cbn; [reflexivity |].
  fold (effects t).
  destruct ev; cbn; rewrite ?Hf, ?IH; reflexivity.
Qed.

Lemma aggregate_calls_effects t : aggregate_calls (effects t) = aggregate_calls t.
Proof. apply omap_effects. reflexivity. Qed.

Lemma opened_effects t : opened (effects t) = opened t.
Proof. apply omap_effects. reflexivity. Qed.

Lemma dumped_effects t : dumped (effects t) = dumped t.
Proof. apply omap_effects. reflexivity. Qed.

Lemma fetches_app t1 t2 : fetches (t1 ++ t2) = fetches t1 ++ fetches t2.
Proof. apply omap_app. Qed.

(** Unfolds the combinators and splits on every scrutinised result. *)
Ltac run_M :=
  unfold effect, construct, bind, catch, lift, call, print, emit, ret, raise;
  repeat (cbn [fst snd app];
          match goal with
          | |- context [match ?x with _ => _ end] =>
              lazymatch x with
              | context [match _ with _ => _ end] => fail
              | _ => destruct x eqn:?
              end
          end);
  cbn [fst snd app].

(** ** The date filter *)

Section Filter.

Variable e : env.
Variable start end_ : datetime.t.

(** The filter keeps its accumulator as a prefix and, when it completes,
    appends exactly the records whose date is in range, in order. *)
Lemma filter_games_acc games acc :
  filter_games e start end_ games acc =
  match filter_games e start end_ games [] with
  | inl ex => inl ex
  | inr kept => inr (acc ++ kept)
  end.
Proof.
  revert acc. induction games as [| game rest IH]; intros acc; cbn.
  - now rewrite app_nil_r.
  - destruct (game_date e game) as [ex | d]; [reflexivity |].
    rewrite (IH (if in_range start end_ d then acc ++ [game] else acc)).
    rewrite (IH (if in_range start end_ d then [game] else [])).
    destruct (filter_games e start end_ rest []) as [ex | kept];
      [reflexivity |].
    destruct (in_range start end_ d); cbn; now rewrite <- ?app_assoc.
Qed.

Lemma filter_games_cons game rest :
  filter_games e start end_ (game :: rest) [] =
  match game_date e game with
  | inl ex => inl ex
  | inr d =>
      match filter_games e start end_ rest [] with
      | inl ex => inl ex
      | inr kept => inr ((if in_range start end_ d then [game] else []) ++ kept)
      end
  end.
Proof.
  cbn. destruct (game_date e game) as [ex | d]; [reflexivity |].
  apply filter_games_acc.
Qed.

Lemma filter_games_completes games :
  all_dated e games <-> exists kept, filter_games e start end_ games [] = inr kept.
Proof.
  induction games as [| game rest IH].
  - split; [cbn; eauto | constructor].
  - rewrite filter_games_cons. split.
    + intros Hall. inversion Hall as [| ? ? [d Hd] Hrest]; subst.
      rewrite Hd. apply IH in Hrest as [kept ->]. eauto.
    + intros [kept Hk].
      destruct (game_date e game) as [ex | d] eqn:Hd; [discriminate |].
      destruct (filter_games e start end_ rest []) as [ex | kept'] eqn:Hr;
        [discriminate |].
      constructor; [eauto | apply IH; eauto].
Qed.

Lemma filter_games_elem games kept game :
  filter_games e start end_ games [] = inr kept ->
  game ∈ kept <->
  game ∈ games /\
  exists d, game_date e game = inr d /\ in_range start end_ d = true.
Proof.
  revert kept. induction games as [| g rest IH]; intros kept.
  - intros [= <-]. split; [intros H | intros [H _]]; inversion H.
  - rewrite filter_games_cons.
    destruct (game_date e g) as [ex | d] eqn:Hd; [discriminate |].
    destruct (filter_games e start end_ rest []) as [ex | kept'] eqn:Hr;
      [discriminate |].
    intros [= <-]. specialize (IH kept' eq_refl).
    rewrite elem_of_app, elem_of_cons, IH.
    destruct (in_range start end_ d) eqn:Hin.
    + rewrite list_elem_of_singleton. split.
      * intros [-> | [Hg Hd']]; eauto.
      * intros [[-> | Hg] Hd']; eauto.
    + split.
      * intros [H | [Hg Hd']]; [inversion H | eauto].
      * intros [[-> | Hg] (d' & Hd' & Hin')]; [| eauto].
        rewrite Hd in Hd'. injection Hd' as <-. congruence.
Qed.

End Filter.

(** ** The fetch loop *)

Section Loop.

Variable e : env.
Variable cfg : config.
Variable start end_ : datetime.t.

(** One iteration always completes: one fetch attempt, one line of
    output, and the month's contribution appended. *)
Lemma fetch_month_spec current all_games :
  exists line,
    fetch_month e cfg start end_ current all_games =
    ([EFetch (USERNAME cfg) (datetime.year current) (datetime.month current);
      EPrint line],
     inr (all_games
          ++ month_games e cfg start end_
               (datetime.year current, datetime.month current))).
Proof.
  unfold fetch_month, month_games. cbn [fst snd].
  destruct (get_games_by_month e (USERNAME cfg) (datetime.year current)
              (datetime.month current)) as [ex | games]; cbn.
  - rewrite app_nil_r. eauto.
  - destruct (filter_games e start end_ games []) as [ex | kept]; cbn.
    + rewrite app_nil_r. eauto.
    + eauto.
Qed.

(** The loop satisfies the equation of the [while] statement. *)
Lemma fetch_loop_while current all_games :
  fetch_loop e cfg start end_ current all_games =
  if datetime.le current end_ then
    match next_month current with
    | inl ex => fetch_month e cfg start end_ current all_games ;;; raise ex
    | inr current' =>
        all_games' <- fetch_month e cfg start end_ current all_games ;;
        fetch_loop e cfg start end_ current' all_games'
    end
  else ret all_games.
Proof.
  funelim (fetch_loop e cfg start end_ current all_games);
    repeat match goal with
           | H : datetime.le _ _ = _ |- _ => rewrite H
           | H : next_month _ = _ |- _ => rewrite H
           end; reflexivity.
Qed.

(** Besides printing, the loop only fetches; when it completes, the
    accumulated list is the initial one followed by the contribution of
    each month it attempted, in order. *)
Lemma fetch_loop_spec current all_games :
  effects (fst (fetch_loop e cfg start end_ current all_games)) =
    map (fun ym => EFetch (USERNAME cfg) ym.1 ym.2)
      (fetches (fst (fetch_loop e cfg start end_ current all_games)))
  /\ forall all_games',
      snd (fetch_loop e cfg start end_ current all_games) = inr all_games' ->
      all_games' =
      all_games
      ++ flat_map (month_games e cfg start end_)
           (fetches (fst (fetch_loop e cfg start end_ current all_games))).
Proof.
  funelim (fetch_loop e cfg start end_ current all_games).
  - cbn. split; [reflexivity |]. intros ? [= <-]. now rewrite app_nil_r.
  - destruct (fetch_month_spec current all_games) as [line Hm].
    rewrite (bind_returns _ _ _ _ Hm). cbn. split; [reflexivity |].
    discriminate.
  - destruct (fetch_month_spec current all_games) as [line Hm].
    rewrite (bind_returns _ _ _ _ Hm).
    match goal with
    | IH : forall all_games, _ /\ _ |- _ =>
        destruct (IH (all_games
                      ++ month_games e cfg start end_
                           (datetime.year current, datetime.month current)))
          as [IHe IHr]
    end.
    cbn [fst snd]. rewrite effects_app, fetches_app. cbn. split.
    + now rewrite IHe.
    + intros all_games' Hr. rewrite (IHr _ Hr).
      now rewrite <- app_assoc.
Qed.

End Loop.

(** Replaces the next iteration in the goal by its two events and its
    result. *)
Ltac step_month :=
  match goal with
  | |- context [bind (fetch_month ?e ?c ?s ?en ?cur ?acc) _] =>
      let line := fresh "line" in
      let Hm := fresh "Hm" in
      destruct (fetch_month_spec e c s en cur acc) as [line Hm];
      rewrite (bind_returns _ _ _ _ Hm); clear Hm
  end.

(** The months attempted depend neither on what the collaborator answers
    nor on the user name. *)
Lemma fetch_loop_fetches_env e1 cfg1 e2 cfg2 start end_ current acc1 acc2 :
  fetches (fst (fetch_loop e1 cfg1 start end_ current acc1)) =
  fetches (fst (fetch_loop e2 cfg2 start end_ current acc2)).
Proof.
  revert acc2.
  funelim (fetch_loop e1 cfg1 start end_ current acc1); intros acc2;
    rewrite (fetch_loop_while e2 cfg2 start end_ current acc2);
    repeat match goal with
           | H : datetime.le _ _ = _ |- _ => rewrite H
           | H : next_month _ = _ |- _ => rewrite H
           end; [reflexivity | |];
    do 2 step_month; cbn [fst snd]; [reflexivity |].
  rewrite !fetches_app. f_equal. eauto.
Qed.

(** ** The phases of [main] *)

Lemma effects_bind_nil {A B} (m : M A) (k : A -> M B) :
  effects (fst m) = [] ->
  (forall a, effects (fst (k a)) = []) ->
  effects (fst (bind m k)) = [].
Proof.
  intros Hm Hk. rewrite bind_unfold.
  destruct (snd m) as [ex | a]; cbn [fst]; [assumption |].
  rewrite effects_app, Hm, Hk. reflexivity.
Qed.

Lemma effects_lift {A} (r : exn + A) : effects (fst (lift r)) = [].
Proof. reflexivity. Qed.

Lemma effects_print line : effects (fst (print line)) = [].
Proof. reflexivity. Qed.

Create HintDb quiet.
#[local] Hint Resolve effects_lift effects_print : quiet.
#[local] Hint Extern 2 (effects (fst (bind _ _)) = []) =>
  apply effects_bind_nil; [| intros] : quiet.
#[local] Hint Extern 1 (effects (fst (ret _)) = []) => reflexivity : quiet.

Section Phases.

Variable e : env.
Variable cfg : config.

Lemma of_fetch_events {A} (f : event -> option A) (l : list (Z * Z)) :
  (forall u y m, f (EFetch u y m) = None) ->
  omap f (map (fun ym => EFetch (USERNAME cfg) ym.1 ym.2) l) = [].
Proof.
  intros Hf. induction l as [| ym l IH]; cbn; [reflexivity |].
  now rewrite Hf.
Qed.

(** Initialisation constructs the two services and neither fetches,
    analyses nor touches a file. *)
Lemma initialize_quiet :
  fetches (fst (initialize e cfg)) = []
  /\ aggregate_calls (fst (initialize e cfg)) = []
  /\ opened (fst (initialize e cfg)) = []
  /\ dumped (fst (initialize e cfg)) = [].
Proof.
  unfold initialize, construct, call, print, emit, bind.
  destruct (chess_service_init e);
    destruct (analytics_service_init e (STOCKFISH_PATH cfg) 12 true);
    cbn; repeat split; reflexivity.
Qed.

(** The fetch phase completes only with both dates parsed, and then
    returns what the loop accumulated from the empty list. *)
Lemma fetch_games_returns t all_games :
  fetch_games e cfg = (t, inr all_games) ->
  exists start end_ tl,
    datetime.strptime (START_DATE cfg) = inr start
    /\ datetime.strptime (END_DATE cfg) = inr end_
    /\ fetch_loop e cfg start end_ start [] = (tl, inr all_games)
    /\ fetches t = fetches tl.
Proof.
  unfold fetch_games, lift, print, emit, ret, bind.
  destruct (datetime.strptime (START_DATE cfg)) as [ex | start];
    [discriminate |].
  destruct (datetime.strptime (END_DATE cfg)) as [ex | end_];
    [discriminate |].
  destruct (fetch_loop e cfg start end_ start []) as [tl [ex | games]] eqn:Hl;
    cbn; [discriminate |].
  intros [= <- <-]. exists start, end_, tl.
  split; [reflexivity |]. split; [reflexivity |]. split; [assumption |].
  unfold fetches. cbn. rewrite omap_app. cbn. now rewrite app_nil_r.
Qed.

(** Besides printing, the fetch phase only fetches. *)
Lemma fetch_games_effects :
  effects (fst (fetch_games e cfg)) =
  map (fun ym => EFetch (USERNAME cfg) ym.1 ym.2)
    (fetches (fst (fetch_games e cfg))).
Proof.
  unfold fetch_games, lift, print, emit, ret, bind.
  destruct (datetime.strptime (START_DATE cfg)) as [ex | start];
    [reflexivity |].
  destruct (datetime.strptime (END_DATE cfg)) as [ex | end_];
    [reflexivity |].
  pose proof (fetch_loop_spec e cfg start end_ start []) as [He _].
  destruct (fetch_loop e cfg start end_ start []) as [tl [ex | games]];
    cbn [fst snd] in *; cbn; [assumption |].
  rewrite effects_app, fetches_app, He. cbn. now rewrite !app_nil_r.
Qed.

Lemma fetch_games_quiet :
  aggregate_calls (fst (fetch_games e cfg)) = []
  /\ opened (fst (fetch_games e cfg)) = []
  /\ dumped (fst (fetch_games e cfg)) = [].
Proof.
  rewrite <- aggregate_calls_effects, <- opened_effects, <- dumped_effects.
  rewrite fetch_games_effects.
  repeat split; apply of_fetch_events; reflexivity.
Qed.

(** The analysis phase calls the aggregation once, with the list and the
    user name it was given; what it returns is what the call returned. *)
Lemma run_analysis_effects all_games :
  effects (fst (run_analysis e cfg all_games)) =
  [EAggregate all_games (USERNAME cfg)].
Proof. unfold run_analysis. run_M; reflexivity. Qed.

Lemma run_analysis_returns all_games t mistake_analysis :
  run_analysis e cfg all_games = (t, inr mistake_analysis) ->
  aggregate_mistake_analysis e all_games (USERNAME cfg) = inr mistake_analysis.
Proof.
  unfold run_analysis. run_M; congruence.
Qed.

Lemma run_analysis_raises all_games ex :
  aggregate_mistake_analysis e all_games (USERNAME cfg) = inl ex ->
  exists t, run_analysis e cfg all_games = (t, inl ex).
Proof.
  intros H. unfold run_analysis. rewrite H. run_M. eauto.
Qed.

Lemma show_field_quiet stage_data label key :
  effects (fst (show_field e stage_data label key)) = [].
Proof. unfold show_field. auto with quiet. Qed.

Lemma show_stage_quiet mistake_analysis stage :
  effects (fst (show_stage e mistake_analysis stage)) = [].
Proof.
  unfold show_stage.
  apply effects_bind_nil; [apply effects_lift | intros stage_data].
  apply effects_bind_nil; [apply effects_lift | intros total_moves].
  apply effects_bind_nil; [apply effects_lift | intros [|]];
    [| reflexivity].
  repeat (apply effects_bind_nil;
          [first [apply effects_print | apply show_field_quiet] | intros _]).
  apply show_field_quiet.
Qed.

Lemma for_each_quiet {A} (body : A -> M unit) l :
  (forall x, effects (fst (body x)) = []) ->
  effects (fst (for_each body l)) = [].
Proof.
  intros Hb. induction l as [| x l IH]; cbn; auto with quiet.
Qed.

Lemma display_summary_quiet mistake_analysis :
  effects (fst (display_summary e mistake_analysis)) = [].
Proof.
  unfold display_summary.
  apply effects_bind_nil; [auto with quiet | intros _].
  apply for_each_quiet, show_stage_quiet.
Qed.

End Phases.

Section Run.

Variable e : env.
Variable cfg : config.

Lemma save_effects mistake_analysis all_games :
  let path := output_path e cfg in
  let data := VDict (output_data e cfg mistake_analysis all_games) in
  effects (fst (save e cfg mistake_analysis all_games)) =
  match open_w e path with
  | Some _ => []
  | None =>
      EOpenW path
      :: match json_dump e path data with
         | Some _ => []
         | None => [EJsonDump path data]
         end
  end.
Proof. unfold save. run_M; reflexivity. Qed.

Lemma save_result mistake_analysis all_games :
  let path := output_path e cfg in
  let data := VDict (output_data e cfg mistake_analysis all_games) in
  snd (save e cfg mistake_analysis all_games) =
  match open_w e path with
  | Some ex => inl ex
  | None =>
      match json_dump e path data with
      | Some ex => inl ex
      | None => inr path
      end
  end.
Proof. unfold save. run_M; reflexivity. Qed.

(** After the guard: one aggregation call on the list, then at most the
    open and the dump of the output object built from the call's result
    and the same list. *)
Lemma analyse_and_save_effects all_games :
  exists rest,
    effects (fst (analyse_and_save e cfg all_games)) =
    EAggregate all_games (USERNAME cfg) :: rest
    /\ (rest = []
        \/ exists mistake_analysis,
             aggregate_mistake_analysis e all_games (USERNAME cfg)
             = inr mistake_analysis
             /\ (rest = [EOpenW (output_path e cfg)]
                 \/ rest = [EOpenW (output_path e cfg);
                            EJsonDump (output_path e cfg)
                              (VDict (output_data e cfg mistake_analysis
                                        all_games))])).
Proof.
  unfold analyse_and_save. rewrite bind_unfold.
  pose proof (run_analysis_effects e cfg all_games) as Ha.
  destruct (run_analysis e cfg all_games) as [ta [ex | ma]] eqn:Hr;
    cbn [fst snd] in *.
  { exists []. rewrite Ha. auto. }
  apply run_analysis_returns in Hr.
  rewrite bind_unfold.
  pose proof (display_summary_quiet e ma) as Hd.
  destruct (display_summary e ma) as [td [ex | []]]; cbn [fst snd] in *.
  { exists []. rewrite effects_app, Ha, Hd. auto. }
  rewrite bind_unfold.
  pose proof (save_effects ma all_games) as Hs.
  pose proof (save_result ma all_games) as Hres.
  cbn zeta in Hs, Hres.
  destruct (save e cfg ma all_games) as [ts rs]; cbn [fst snd] in *.
  eexists. split.
  - destruct rs; cbn [fst snd ret];
      rewrite !effects_app, ?app_nil_r, Ha, Hd, Hs; cbn; reflexivity.
  - destruct (open_w e (output_path e cfg)); [auto |].
    right. exists ma. split; [assumption |].
    destruct (json_dump e (output_path e cfg) _); auto.
Qed.

Lemma main_cases : main_path e cfg (main e cfg).
Proof.
  unfold main.
  destruct (initialize e cfg) as [t0 [ex | []]] eqn:Hi.
  { cbn. now apply init_raises. }
  destruct (fetch_games e cfg) as [t1 [ex | [| game games]]] eqn:Hf.
  - cbn. now apply fetch_raises.
  - cbn. now apply no_games.
  - destruct (analyse_and_save e cfg (game :: games)) as [t2 r] eqn:Ha.
    cbn. rewrite Ha. now apply (some_games e cfg t0 t1 game games t2 r).
Qed.

(** The guard adds a line (and a traceback) to the trace of [main] and
    turns its outcome into the exit status. *)
Lemma script_of_main t r :
  main e cfg = (t, r) ->
  script e cfg =
  match r with
  | inr output_file =>
      (t ++ [EPrint (nl +:+ "Success! File saved at: "
                     +:+ default "None" output_file)], 0)
  | inl ex =>
      (t ++ [EPrint (nl +:+ "✗ Error: " +:+ exn_str ex); ETraceback ex], 1)
  end.
Proof. unfold script. intros ->. destruct r; reflexivity. Qed.

Lemma script_tail :
  exists tail,
    fst (script e cfg) = fst (main e cfg) ++ tail
    /\ omap fetch_of tail = [].
Proof.
  unfold script.
  destruct (main e cfg) as [t [ex | r]]; cbn [fst]; eauto.
Qed.

Lemma script_readings {A} (f : event -> option A) :
  (forall line, f (EPrint line) = None) ->
  (forall ex, f (ETraceback ex) = None) ->
  omap f (fst (script e cfg)) = omap f (fst (main e cfg)).
Proof.
  intros Hp Ht. unfold script.
  destruct (main e cfg) as [t [ex | r]]; cbn [fst];
    rewrite omap_app; cbn; rewrite ?Hp, ?Ht; cbn; apply app_nil_r.
Qed.

Lemma bind_trace_prefix {A B} (m : M A) (k : A -> M B) :
  exists t', fst (bind m k) = fst m ++ t'.
Proof.
  rewrite bind_unfold. destruct (snd m); cbn [fst]; eauto.
  exists []. now rewrite app_nil_r.
Qed.

(** The aggregation call is the third event of the analysis phase, after
    two lines of output; nothing else of note follows in that phase. *)
Lemma run_analysis_trace all_games :
  exists line1 line2 post,
    fst (run_analysis e cfg all_games) =
    [EPrint line1; EPrint line2; EAggregate all_games (USERNAME cfg)] ++ post
    /\ effects post = [].
Proof.
  unfold run_analysis. run_M; do 3 eexists; split; reflexivity.
Qed.

Lemma analyse_and_save_trace all_games :
  exists line1 line2 post,
    fst (analyse_and_save e cfg all_games) =
    [EPrint line1; EPrint line2; EAggregate all_games (USERNAME cfg)] ++ post
    /\ EAggregate all_games (USERNAME cfg) :: effects post
       = effects (fst (analyse_and_save e cfg all_games)).
Proof.
  destruct (run_analysis_trace all_games) as (l1 & l2 & post & Ht & Hq).
  unfold analyse_and_save.
  destruct (bind_trace_prefix (run_analysis e cfg all_games)
              (fun mistake_analysis =>
                 display_summary e mistake_analysis ;;;
                 output_file <- save e cfg mistake_analysis all_games ;;
                 ret (Some output_file))) as [t' Hb].
  rewrite Hb, Ht. exists l1, l2, (post ++ t'). split.
  - now rewrite <- app_assoc.
  - rewrite !effects_app. reflexivity.
Qed.

(** Without a non-empty result of the fetch phase, [main] neither
    analyses nor touches a file. *)
Lemma main_quiet_without_games :
  (forall t0 t1 game games,
      initialize e cfg = (t0, inr tt) ->
      fetch_games e cfg = (t1, inr (game :: games)) -> False) ->
  aggregate_calls (fst (main e cfg)) = []
  /\ opened (fst (main e cfg)) = []
  /\ dumped (fst (main e cfg)) = [].
Proof.
  intros Hno.
  pose proof (initialize_quiet e cfg) as (_ & Hia & Hio & Hid).
  pose proof (fetch_games_quiet e cfg) as (Hfa & Hfo & Hfd).
  destruct main_cases as [t ex Hi | t0 t1 ex Hi Hf | t0 t1 Hi Hf
                         | t0 t1 game games t2 r Hi Hf Ha];
    rewrite Hi in *; try rewrite Hf in *; cbn [fst] in *.
  - auto.
  - unfold aggregate_calls, opened, dumped in *. rewrite !omap_app.
    rewrite Hia, Hio, Hid, Hfa, Hfo, Hfd. auto.
  - unfold aggregate_calls, opened, dumped in *. rewrite !omap_app.
    rewrite Hia, Hio, Hid, Hfa, Hfo, Hfd. auto.
  - destruct (Hno _ _ _ _ eq_refl eq_refl).
Qed.

(** With games, what [main] does besides printing: the constructors,
    the fetches, one aggregation call, then at most the open and the
    dump. *)
Lemma main_with_games t0 t1 all_games :
  initialize e cfg = (t0, inr tt) ->
  fetch_games e cfg = (t1, inr all_games) ->
  all_games <> [] ->
  main e cfg =
    (t0 ++ t1 ++ fst (analyse_and_save e cfg all_games),
     snd (analyse_and_save e cfg all_games))
  /\ fetches (fst (main e cfg)) = fetches t1
  /\ aggregate_calls (fst (main e cfg)) = [(all_games, USERNAME cfg)]
  /\ exists rest,
       effects (fst (analyse_and_save e cfg all_games))
       = EAggregate all_games (USERNAME cfg) :: rest
       /\ opened (fst (main e cfg)) = opened rest
       /\ dumped (fst (main e cfg)) = dumped rest
       /\ (rest = []
           \/ exists mistake_analysis,
                aggregate_mistake_analysis e all_games (USERNAME cfg)
                = inr mistake_analysis
                /\ (rest = [EOpenW (output_path e cfg)]
                    \/ rest = [EOpenW (output_path e cfg);
                               EJsonDump (output_path e cfg)
                                 (VDict (output_data e cfg mistake_analysis
                                           all_games))])).
Proof.
  intros Hi Hf Hne.
  assert (Hmain : main e cfg =
                  (t0 ++ t1 ++ fst (analyse_and_save e cfg all_games),
                   snd (analyse_and_save e cfg all_games))).
  { unfold main. rewrite (bind_returns _ _ _ _ Hi).
    rewrite (bind_returns _ _ _ _ Hf). cbn [fst snd].
    destruct all_games as [| game games]; [congruence | reflexivity]. }
  split; [exact Hmain |].
  pose proof (initialize_quiet e cfg) as (Hif & Hia & Hio & Hid).
  pose proof (fetch_games_quiet e cfg) as (Hfa & Hfo & Hfd).
  rewrite Hi in Hif, Hia, Hio, Hid. rewrite Hf in Hfa, Hfo, Hfd.
  cbn [fst] in *.
  destruct (analyse_and_save_effects all_games) as (rest & He & Hrest).
  rewrite Hmain. cbn [fst].
  assert (Hfr : fetches rest = [] /\ aggregate_calls rest = []).
  { destruct Hrest as [-> | (ma & _ & [-> | ->])]; auto. }
  destruct Hfr as [Hfr Har].
  unfold fetches, aggregate_calls, opened, dumped in *.
  rewrite !omap_app, Hif, Hia, Hio, Hid, Hfa, Hfo, Hfd. cbn [app].
  rewrite <- (omap_effects fetch_of (fst (analyse_and_save _ _ _))),
    <- (omap_effects aggregate_of (fst (analyse_and_save _ _ _))),
    <- (omap_effects open_of (fst (analyse_and_save _ _ _))),
    <- (omap_effects dump_of (fst (analyse_and_save _ _ _)))
    by reflexivity.
  rewrite He. cbn. rewrite Hfr, Har, app_nil_r.
  split; [reflexivity |]. split; [reflexivity |].
  exists rest. auto.
Qed.

(** Either the fetch phase is not reached or gives no games, and [main]
    neither analyses nor touches a file; or it gives a non-empty list. *)
Lemma run_cases :
  (aggregate_calls (fst (main e cfg)) = []
   /\ opened (fst (main e cfg)) = []
   /\ dumped (fst (main e cfg)) = []
   /\ forall t0 t1 game games,
        initialize e cfg = (t0, inr tt) ->
        fetch_games e cfg = (t1, inr (game :: games)) -> False)
  \/ (exists t0 t1 all_games,
        initialize e cfg = (t0, inr tt)
        /\ fetch_games e cfg = (t1, inr all_games)
        /\ all_games <> []).
Proof.
  destruct (initialize e cfg) as [t0 [ex | []]] eqn:Hi.
  { left. destruct main_quiet_without_games as (Ha & Ho & Hd);
      [| repeat split; try assumption]; intros; congruence. }
  destruct (fetch_games e cfg) as [t1 [ex | [| game games]]] eqn:Hf.
  - left. destruct main_quiet_without_games as (Ha & Ho & Hd);
      [| repeat split; try assumption]; intros; congruence.
  - left. destruct main_quiet_without_games as (Ha & Ho & Hd);
      [| repeat split; try assumption]; intros; congruence.
  - right. exists t0, t1, (game :: games). repeat split. discriminate.
Qed.

(** When the part after the guard completes, it has opened the output
    file and dumped the output object, and returns the file's path. *)
Lemma analyse_and_save_returns all_games t r :
  analyse_and_save e cfg all_games = (t, inr r) ->
  exists mistake_analysis,
    aggregate_mistake_analysis e all_games (USERNAME cfg)
    = inr mistake_analysis
    /\ r = Some (output_path e cfg)
    /\ effects t =
       [EAggregate all_games (USERNAME cfg);
        EOpenW (output_path e cfg);
        EJsonDump (output_path e cfg)
          (VDict (output_data e cfg mistake_analysis all_games))].
Proof.
  unfold analyse_and_save. rewrite bind_unfold.
  pose proof (run_analysis_effects e cfg all_games) as Ha.
  destruct (run_analysis e cfg all_games) as [ta [ex | ma]] eqn:Hr;
    cbn [fst snd] in *; [discriminate |].
  apply run_analysis_returns in Hr.
  rewrite bind_unfold.
  pose proof (display_summary_quiet e ma) as Hd.
  destruct (display_summary e ma) as [td [ex | []]]; cbn [fst snd] in *;
    [discriminate |].
  rewrite bind_unfold.
  pose proof (save_effects ma all_games) as Hs.
  pose proof (save_result ma all_games) as Hres.
  cbn zeta in Hs, Hres.
  destruct (save e cfg ma all_games) as [ts [ex | path]];
    cbn [fst snd ret] in *; [discriminate |].
  intros [= <- <-]. exists ma. split; [assumption |].
  rewrite !effects_app, app_nil_r, Ha, Hd, Hs.
  destruct (open_w e (output_path e cfg)); [discriminate |].
  destruct (json_dump e (output_path e cfg) _); [discriminate |].
  injection Hres as ->. auto.
Qed.

(** Whatever the script dumps is the output object for the accumulated
    list and the analysis of that list, written once, to the output
    path. *)
Lemma script_dumped path data :
  (path, data) ∈ dumped (fst (script e cfg)) ->
  exists t0 t1 all_games mistake_analysis,
    initialize e cfg = (t0, inr tt)
    /\ fetch_games e cfg = (t1, inr all_games)
    /\ all_games <> []
    /\ aggregate_mistake_analysis e all_games (USERNAME cfg)
       = inr mistake_analysis
    /\ path = output_path e cfg
    /\ data = VDict (output_data e cfg mistake_analysis all_games)
    /\ dumped (fst (script e cfg)) = [(path, data)].
Proof.
  unfold dumped. rewrite script_readings by reflexivity.
  destruct run_cases as [(_ & _ & Hd & _) | (t0 & t1 & all_games & Hi & Hf & Hne)].
  { unfold dumped in Hd. rewrite Hd. intros H. inversion H. }
  destruct (main_with_games t0 t1 all_games Hi Hf Hne)
    as (_ & _ & _ & rest & _ & _ & Hd & Hrest).
  unfold dumped in Hd. rewrite Hd.
  destruct Hrest as [-> | (ma & Hma & [-> | ->])]; cbn;
    try solve [intros H; inversion H].
  intros Hin. apply list_elem_of_singleton in Hin. injection Hin as -> ->.
  exists t0, t1, all_games, ma. auto 10.
Qed.

End Run.

(** ** Dates *)

Lemma le_year_lt d1 d2 :
  datetime.year d2 < datetime.year d1 -> datetime.le d1 d2 = false.
Proof.
  intros H. unfold datetime.le, datetime.fields. cbn [datetime.lex_compare].
  apply Z.gt_lt_iff in H. unfold Z.gt in H. now rewrite H.
Qed.

(** In any zone less than a day away from UTC, the epoch is a local date
    of 1969 or 1970. *)
Lemma of_epoch_zero utcoffset :
  -86400 < utcoffset 0 < 86400 ->
  exists d, datetime.of_epoch utcoffset 0 0 = inr d /\ datetime.year d <= 1970.
Proof.
  intros Hoff. unfold datetime.of_epoch. rewrite Z.add_0_l.
  assert (Hq : utcoffset 0 / 86400 = -1 \/ utcoffset 0 / 86400 = 0).
  { destruct (Z.lt_ge_cases (utcoffset 0) 0).
    - left. symmetry. apply (Z.div_unique _ _ _ (utcoffset 0 + 86400)); lia.
    - right. apply Z.div_small. lia. }
  destruct Hq as [-> | ->].
  - change (datetime.civil_from_days (-1)) with (1969, 12, 31).
    eexists. split; [reflexivity | cbn; lia].
  - change (datetime.civil_from_days 0) with (1970, 1, 1).
    eexists. split; [reflexivity | cbn; lia].
Qed.

(** A record without end time dates to the local epoch. *)
Lemma game_date_undated e (d : gmap string value) :
  d !! "end_time" = None ->
  game_date e (VDict d) = datetime.of_epoch (utcoffset e) 0 0.
Proof. intros H. unfold game_date, dict_get. now rewrite H. Qed.

Lemma strptime_2026_01_31 :
  datetime.strptime "2026-01-31" = inr (datetime.mk 2026 1 31 0 0 0 0).
Proof. reflexivity. Qed.

Lemma strptime_2026_01_15 :
  datetime.strptime "2026-01-15" = inr (datetime.mk 2026 1 15 0 0 0 0).
Proof. reflexivity. Qed.

Lemma strptime_2026_02_10 :
  datetime.strptime "2026-02-10" = inr (datetime.mk 2026 2 10 0 0 0 0).
Proof. reflexivity. Qed.

Lemma strptime_2026_03_31 :
  datetime.strptime "2026-03-31" = inr (datetime.mk 2026 3 31 0 0 0 0).
Proof. reflexivity. Qed.

(** ** What the fetch phase accumulates *)

Section Accumulated.

Variable e : env.
Variable cfg : config.
Variables start end_ : datetime.t.
Hypothesis Hstart : datetime.strptime (START_DATE cfg) = inr start.
Hypothesis Hend : datetime.strptime (END_DATE cfg) = inr end_.

Lemma fetch_games_accumulates t all_games :
  fetch_games e cfg = (t, inr all_games) ->
  all_games = flat_map (month_games e cfg start end_) (fetches t).
Proof using Hstart Hend.
  intros Hf.
  destruct (fetch_games_returns e cfg t all_games Hf)
    as (start' & end' & tl & Hs & He & Hl & Hft).
  rewrite Hstart in Hs. rewrite Hend in He.
  injection Hs as <-. injection He as <-.
  pose proof (fetch_loop_spec e cfg start end_ start []) as [_ Hr].
  rewrite Hl in Hr. cbn [fst snd] in Hr. rewrite Hft.
  now apply Hr.
Qed.

Lemma month_games_elem ym game :
  game ∈ month_games e cfg start end_ ym ->
  exists d, game_date e game = inr d /\ in_range start end_ d = true.
Proof using Type.
  unfold month_games.
  destruct (get_games_by_month e (USERNAME cfg) ym.1 ym.2) as [ex | games];
    [intros H; inversion H |].
  destruct (filter_games e start end_ games []) as [ex | kept] eqn:Hk;
    [intros H; inversion H |].
  intros H. now apply (filter_games_elem e start end_ games kept game Hk) in H.
Qed.

(** Every accumulated record has an end time that converts to a date in
    range. *)
Lemma accumulated_in_range t all_games game :
  fetch_games e cfg = (t, inr all_games) ->
  game ∈ all_games ->
  exists d, game_date e game = inr d /\ in_range start end_ d = true.
Proof using Hstart Hend.
  intros Hf Hin. rewrite (fetch_games_accumulates t all_games Hf) in Hin.
  apply list_elem_of_In, in_flat_map in Hin as (ym & _ & Hin).
  apply list_elem_of_In in Hin. eapply month_games_elem; eauto.
Qed.

(** A month that completes contributes its in-range records. *)
Lemma accumulated_from_month t all_games y m games game d :
  fetch_games e cfg = (t, inr all_games) ->
  (y, m) ∈ fetches t ->
  get_games_by_month e (USERNAME cfg) y m = inr games ->
  all_dated e games ->
  game ∈ games ->
  game_date e game = inr d ->
  in_range start end_ d = true ->
  game ∈ all_games.
Proof using Hstart Hend.
  intros Hf Hym Hg Hall Hin Hd Hr.
  rewrite (fetch_games_accumulates t all_games Hf).
  apply list_elem_of_In, in_flat_map. exists (y, m).
  split; [now apply list_elem_of_In |].
  apply list_elem_of_In. unfold month_games. cbn [fst snd]. rewrite Hg.
  apply (filter_games_completes e start end_) in Hall as [kept Hk].
  rewrite Hk. apply (filter_games_elem e start end_ games kept game Hk).
  eauto.
Qed.

(** A month in which some end time does not convert contributes
    nothing. *)
Lemma month_games_undated y m games :
  get_games_by_month e (USERNAME cfg) y m = inr games ->
  ~ all_dated e games ->
  month_games e cfg start end_ (y, m) = [].
Proof using Type.
  intros Hg Hall. unfold month_games. cbn [fst snd]. rewrite Hg.
  destruct (filter_games e start end_ games []) as [ex | kept] eqn:Hk;
    [reflexivity |].
  destruct Hall. apply (filter_games_completes e start end_). eauto.
Qed.

End Accumulated.

(** * The claims *)

(** Runs one iteration of the loop on concrete dates: evaluates the guard
    and the step, and replaces the month's body by its events. *)
Ltac loop_step :=
  rewrite fetch_loop_while;
  match goal with
  | |- context [datetime.le ?a ?b] =>
      let v := eval vm_compute in (datetime.le a b) in
      change (datetime.le a b) with v
  end;
  cbv iota;
  try (match goal with
       | |- context [next_month ?c] =>
           let v := eval vm_compute in (next_month c) in
           change (next_month c) with v
       end;
       cbv iota; step_month; cbn [fst snd datetime.year datetime.month]).

(** ** No games found *)

(** When the fetch phase ends with an empty list, [main] returns [None]
    after its message and the guard reports success with status 0. *)
Lemma script_without_games e cfg t0 t1 :
  initialize e cfg = (t0, inr tt) ->
  fetch_games e cfg = (t1, inr []) ->
  script e cfg =
  (t0 ++ t1 ++ [EPrint (nl +:+ "✗ No games found. Exiting.")]
   ++ [EPrint (nl +:+ "Success! File saved at: None")], 0).
Proof.
  intros Hi Hf.
  rewrite (script_of_main e cfg
             (t0 ++ t1 ++ [EPrint (nl +:+ "✗ No games found. Exiting.")])
             (inr None)).
  - cbn [default]. now rewrite <- !app_assoc.
  - unfold main. rewrite (bind_returns _ _ _ _ Hi), (bind_returns _ _ _ _ Hf).
    reflexivity.
Qed.

(** C1 (the code departs from it): with the shipped configuration and a
    game service that has no games for the month, the fetch phase ends with
    an empty list, the script prints its no-games message, then reports
    success with the file name None, and the exit status is 0, not a
    non-zero one. *)
Theorem no_games_run_exits_with_zero :
  let e := sample_env fetch_nothing aggregate_ok None None in
  snd (fetch_games e shipped_config) = inr []
  /\ take 2 (rev (printed (fst (script e shipped_config)))) =
     [nl +:+ "Success! File saved at: None";
      nl +:+ "✗ No games found. Exiting."]
  /\ snd (script e shipped_config) = 0.
Proof. vm_compute. repeat split; reflexivity. Qed.

(** ** Month iteration *)

(** C7 (the code departs from it): from 2026-01-15 to 2026-02-10 the start
    is not after the end and the months from the start's through the end's
    are January and February, yet whatever the collaborator answers the loop
    attempts January only: after the first step the cursor is 2026-02-15,
    past the end date, and the loop stops. *)
Theorem mid_month_start_skips_last_month (e : env) :
  let cfg := config_for "2026-01-15" "2026-02-10" in
  let start := datetime.mk 2026 1 15 0 0 0 0 in
  let end_ := datetime.mk 2026 2 10 0 0 0 0 in
  datetime.strptime (START_DATE cfg) = inr start
  /\ datetime.strptime (END_DATE cfg) = inr end_
  /\ datetime.le start end_ = true
  /\ months_between start end_ = [(2026, 1); (2026, 2)]
  /\ fetches (fst (fetch_games e cfg)) = [(2026, 1)]
  /\ snd (fetch_games e cfg) = inr (month_games e cfg start end_ (2026, 1)).
Proof.
  cbv zeta. do 4 (split; [reflexivity |]).
  assert (exists line,
             fetch_loop e (config_for "2026-01-15" "2026-02-10")
               (datetime.mk 2026 1 15 0 0 0 0) (datetime.mk 2026 2 10 0 0 0 0)
               (datetime.mk 2026 1 15 0 0 0 0) [] =
             ([EFetch "jay_fh" 2026 1; EPrint line],
              inr (month_games e (config_for "2026-01-15" "2026-02-10")
                     (datetime.mk 2026 1 15 0 0 0 0)
                     (datetime.mk 2026 2 10 0 0 0 0) (2026, 1))))
    as [line Hloop].
  { do 2 loop_step. eexists. reflexivity. }
  unfold fetch_games. cbn [START_DATE END_DATE config_for].
  rewrite strptime_2026_01_15, strptime_2026_02_10.
  unfold lift, print, emit, ret, bind. rewrite Hloop.
  split; reflexivity.
Qed.

(** The other way the day of the start date breaks the iteration: from
    2026-01-31 the step to February raises [ValueError] outside the
    [try], after January alone was attempted. *)
Lemma day_31_start_raises (e : env) :
  let cfg := config_for "2026-01-31" "2026-03-31" in
  fetches (fst (fetch_games e cfg)) = [(2026, 1)]
  /\ snd (fetch_games e cfg) = inl (ValueError "day is out of range for month").
Proof.
  cbv zeta.
  assert (exists line,
             fetch_loop e (config_for "2026-01-31" "2026-03-31")
               (datetime.mk 2026 1 31 0 0 0 0) (datetime.mk 2026 3 31 0 0 0 0)
               (datetime.mk 2026 1 31 0 0 0 0) [] =
             ([EFetch "jay_fh" 2026 1; EPrint line],
              inl (ValueError "day is out of range for month")))
    as [line Hloop].
  { loop_step. eexists. reflexivity. }
  unfold fetch_games. cbn [START_DATE END_DATE config_for].
  rewrite strptime_2026_01_31, strptime_2026_03_31.
  unfold lift, print, emit, ret, bind. rewrite Hloop.
  split; reflexivity.
Qed.

(** ** Per-month failures *)

(** C2: at any month of the iteration whose fetch raises, the exception
    does not leave the iteration: the attempt is followed by one printed
    line carrying the month and the exception's text, the accumulated list
    is returned unchanged, and the loop goes on from the next month with
    that same list; nor does the failure change which months the loop
    attempts, compared with any other behaviour of the collaborator. *)
Theorem failed_month_is_logged_and_skipped
    e cfg start end_ current all_games ex :
  datetime.le current end_ = true ->
  get_games_by_month e (USERNAME cfg) (datetime.year current)
    (datetime.month current) = inl ex ->
  let attempt :=
    EFetch (USERNAME cfg) (datetime.year current) (datetime.month current) in
  let message :=
    "   ✗ " +:+ datetime.strftime_Y_m current +:+ ": " +:+ exn_str ex in
  fetch_month e cfg start end_ current all_games
  = ([attempt; EPrint message], inr all_games)
  /\ fetch_loop e cfg start end_ current all_games
     = (emit attempt ;;;
        print message ;;;
        match next_month current with
        | inl ex' => raise ex'
        | inr current' => fetch_loop e cfg start end_ current' all_games
        end)%M
  /\ forall e',
       fetches (fst (fetch_loop e' cfg start end_ current all_games))
       = fetches (fst (fetch_loop e cfg start end_ current all_games)).
Proof.
  intros Hle Hfetch attempt message.
  assert (Hmonth : fetch_month e cfg start end_ current all_games
                   = ([attempt; EPrint message], inr all_games)).
  { unfold fetch_month. rewrite Hfetch. reflexivity. }
  split; [exact Hmonth |]. split.
  - rewrite fetch_loop_while, Hle.
    destruct (next_month current) as [ex' | current'];
      rewrite (bind_returns _ _ _ _ Hmonth); cbn [fst snd].
    + reflexivity.
    + unfold emit, print, bind.
      destruct (fetch_loop e cfg start end_ current' all_games); reflexivity.
  - intros e'. apply fetch_loop_fetches_env.
Qed.

Lemma failed_month_is_logged_and_skipped_witness :
  let e := sample_env fetch_february_down aggregate_ok None None in
  let cfg := config_for "2026-01-01" "2026-03-31" in
  let start := datetime.mk 2026 1 1 0 0 0 0 in
  let end_ := datetime.mk 2026 3 31 0 0 0 0 in
  let current := datetime.mk 2026 2 1 0 0 0 0 in
  datetime.le current end_ = true
  /\ get_games_by_month e (USERNAME cfg) 2026 2
     = inl (Exn "HTTPError" "503 Service Unavailable")
  /\ fetch_month e cfg start end_ current [game_a; game_b]
     = ([EFetch "jay_fh" 2026 2;
         EPrint "   ✗ 2026-02: 503 Service Unavailable"],
        inr [game_a; game_b]).
Proof.
  cbv zeta. split; [reflexivity |]. split; [reflexivity |].
  apply (failed_month_is_logged_and_skipped
           (sample_env fetch_february_down aggregate_ok None None)
           (config_for "2026-01-01" "2026-03-31")
           (datetime.mk 2026 1 1 0 0 0 0) (datetime.mk 2026 3 31 0 0 0 0)
           (datetime.mk 2026 2 1 0 0 0 0) [game_a; game_b]
           (Exn "HTTPError" "503 Service Unavailable"));
    reflexivity.
Defined.

(** ** The date filter *)

(** C3, as stated, fails: in January 2026 the service returns a game of
    1 January together with a record whose end time is in milliseconds.
    Converting the second raises inside the month's [try], so the first,
    whose date is in range, is not accumulated either. *)
Lemma bad_record_drops_the_month : ~ filter_exact_for_every_record.
Proof.
  intros Hclaim.
  pose (e := sample_env fetch_with_bad_record aggregate_ok None None).
  specialize (Hclaim e shipped_config
                (datetime.mk 2026 1 1 0 0 0 0) (datetime.mk 2026 1 31 0 0 0 0)
                (fst (fetch_games e shipped_config)) [] 2026 1
                [game_a; game_ms] game_a).
  assert (Hin : game_a ∈ ([] : list value)).
  { apply Hclaim.
    - reflexivity.
    - reflexivity.
    - vm_compute. reflexivity.
    - vm_compute. apply list_elem_of_here.
    - reflexivity.
    - apply list_elem_of_here.
    - eexists. split; vm_compute; reflexivity. }
  inversion Hin.
Qed.

(** C3 (amended): the accumulated list is the concatenation, in order of
    the attempts, of what each month contributes.  Every accumulated record
    has an end time that converts to a date within [start, end].  For a
    month whose fetch returns and whose records' end times all convert, a
    returned record is accumulated if and only if its date lies within
    [start, end]; a month with a record whose end time does not convert
    contributes nothing.  That list is the one passed to the analysis and
    stored under 'games' in the serialized object. *)
Theorem filter_exact_for_completed_months e cfg start end_ t all_games :
  datetime.strptime (START_DATE cfg) = inr start ->
  datetime.strptime (END_DATE cfg) = inr end_ ->
  fetch_games e cfg = (t, inr all_games) ->
  all_games = flat_map (month_games e cfg start end_) (fetches t)
  /\ (forall game,
        game ∈ all_games ->
        exists d, game_date e game = inr d /\ in_range start end_ d = true)
  /\ (forall y m games,
        (y, m) ∈ fetches t ->
        get_games_by_month e (USERNAME cfg) y m = inr games ->
        (all_dated e games ->
         forall game,
           game ∈ games ->
           game ∈ all_games
           <-> exists d, game_date e game = inr d
                         /\ in_range start end_ d = true)
        /\ (~ all_dated e games -> month_games e cfg start end_ (y, m) = []))
  /\ (forall games username,
        (games, username) ∈ aggregate_calls (fst (script e cfg)) ->
        games = all_games)
  /\ (forall path data,
        (path, data) ∈ dumped (fst (script e cfg)) ->
        exists d, data = VDict d /\ d !! "games" = Some (VList all_games)).
Proof.
  intros Hs He Hf.
  split; [eapply fetch_games_accumulates; eauto |].
  split; [intros game; eapply accumulated_in_range; eauto |].
  split.
  { intros y m games Hym Hg. split.
    - intros Hall game Hin. split.
      + eapply accumulated_in_range; eauto.
      + intros (d & Hd & Hr). eapply accumulated_from_month; eauto.
    - intros Hall. eapply month_games_undated; eauto. }
  unfold aggregate_calls, dumped.
  rewrite !script_readings by reflexivity.
  destruct all_games as [| game games].
  { destruct (main_quiet_without_games e cfg) as (Ha & _ & Hd).
    - intros t0 t1 g gs _ Hf'. rewrite Hf in Hf'. discriminate.
    - unfold aggregate_calls, dumped in *. rewrite Ha, Hd.
      split; intros ? ? H; inversion H. }
  destruct (initialize e cfg) as [t0 [ex | []]] eqn:Hi.
  { destruct (main_quiet_without_games e cfg) as (Ha & _ & Hd).
    - intros t0' t1 g gs Hi'. rewrite Hi in Hi'. discriminate.
    - unfold aggregate_calls, dumped in *. rewrite Ha, Hd.
      split; intros ? ? H; inversion H. }
  destruct (main_with_games e cfg t0 t (game :: games) Hi Hf)
    as (_ & _ & Ha & rest & _ & _ & Hd & Hrest); [discriminate |].
  unfold aggregate_calls, dumped in *. rewrite Ha, Hd. split.
  - intros gs u Hin. apply list_elem_of_singleton in Hin. congruence.
  - intros path data Hin.
    destruct Hrest as [-> | (ma & _ & [-> | ->])]; cbn in Hin;
      try solve [inversion Hin].
    apply list_elem_of_singleton in Hin. injection Hin as -> ->.
    eexists. split; [reflexivity |].
    unfold output_data.
    rewrite lookup_insert_ne by discriminate.
    rewrite lookup_insert_ne by discriminate.
    apply lookup_insert_eq.
Qed.

Lemma filter_exact_for_completed_months_witness :
  let e := sample_env fetch_january aggregate_ok None None in
  datetime.strptime (START_DATE shipped_config)
  = inr (datetime.mk 2026 1 1 0 0 0 0)
  /\ datetime.strptime (END_DATE shipped_config)
     = inr (datetime.mk 2026 1 31 0 0 0 0)
  /\ snd (fetch_games e shipped_config) = inr [game_a; game_b]
  /\ [game_a; game_b]
     = flat_map (month_games e shipped_config (datetime.mk 2026 1 1 0 0 0 0)
                   (datetime.mk 2026 1 31 0 0 0 0))
         (fetches (fst (fetch_games e shipped_config))).
Proof.
  cbv zeta. split; [reflexivity |]. split; [reflexivity |].
  split; [vm_compute; reflexivity |].
  apply (filter_exact_for_completed_months
           (sample_env fetch_january aggregate_ok None None) shipped_config
           (datetime.mk 2026 1 1 0 0 0 0) (datetime.mk 2026 1 31 0 0 0 0)
           (fst (fetch_games (sample_env fetch_january aggregate_ok None None)
                   shipped_config))
           [game_a; game_b]);
    vm_compute; reflexivity.
Defined.

(** ** The output object *)

(** C4: whatever object the script serializes is written to the output
    path, once, after a fetch phase that found at least one game; its
    'metadata' holds exactly the six entries user name, start date, end
    date, time zone, analysis time stamp and game count, its
    'mistake_analysis' is what the aggregation returned for the accumulated
    list, and its 'games' is that list.  And whenever games were found and
    the analysis and the saving complete, that object is serialized. *)
Theorem output_object_contents e cfg :
  (forall path data,
      (path, data) ∈ dumped (fst (script e cfg)) ->
      exists t all_games mistake_analysis,
        fetch_games e cfg = (t, inr all_games)
        /\ all_games <> []
        /\ aggregate_mistake_analysis e all_games (USERNAME cfg)
           = inr mistake_analysis
        /\ path = output_path e cfg
        /\ data =
           VDict
             (<["metadata" :=
                  VDict
                    (<["username" := VStr (USERNAME cfg)]>
                    (<["start_date" := VStr (START_DATE cfg)]>
                    (<["end_date" := VStr (END_DATE cfg)]>
                    (<["timezone" := VStr (TIMEZONE cfg)]>
                    (<["analysis_date" := VStr (datetime.isoformat (now e))]>
                    (<["total_games" := VInt (Z.of_nat (length all_games))]>
                     ∅))))))]>
             (<["mistake_analysis" := mistake_analysis]>
             (<["games" := VList all_games]> ∅)))
        /\ dumped (fst (script e cfg)) = [(path, data)])
  /\ (forall t0 t1 all_games t2 r,
        initialize e cfg = (t0, inr tt) ->
        fetch_games e cfg = (t1, inr all_games) ->
        all_games <> [] ->
        analyse_and_save e cfg all_games = (t2, inr r) ->
        exists mistake_analysis,
          aggregate_mistake_analysis e all_games (USERNAME cfg)
          = inr mistake_analysis
          /\ dumped (fst (script e cfg))
             = [(output_path e cfg,
                 VDict (output_data e cfg mistake_analysis all_games))]).
Proof.
  split.
  - intros path data Hin.
    destruct (script_dumped e cfg path data Hin)
      as (t0 & t1 & all_games & ma & _ & Hf & Hne & Hma & -> & -> & Hd).
    exists t1, all_games, ma. auto 10.
  - intros t0 t1 all_games t2 r Hi Hf Hne Ha.
    destruct (analyse_and_save_returns e cfg all_games t2 r Ha)
      as (ma & Hma & _ & He).
    exists ma. split; [assumption |].
    destruct (main_with_games e cfg t0 t1 all_games Hi Hf Hne)
      as (_ & _ & _ & rest & He' & _ & Hd & _).
    unfold dumped in *. rewrite script_readings by reflexivity.
    rewrite Hd. rewrite Ha in He'. cbn [fst] in He'. rewrite He in He'.
    injection He' as <-. reflexivity.
Qed.

Lemma output_object_contents_witness :
  let e := sample_env fetch_january aggregate_ok None None in
  exists t0 t1 t2 r,
    initialize e shipped_config = (t0, inr tt)
    /\ fetch_games e shipped_config = (t1, inr [game_a; game_b])
    /\ analyse_and_save e shipped_config [game_a; game_b] = (t2, inr r)
    /\ exists mistake_analysis,
         aggregate_mistake_analysis e [game_a; game_b] "jay_fh"
         = inr mistake_analysis
         /\ dumped (fst (script e shipped_config))
            = [(output_path e shipped_config,
                VDict (output_data e shipped_config mistake_analysis
                         [game_a; game_b]))].
Proof.
  cbv zeta.
  pose (e := sample_env fetch_january aggregate_ok None None).
  assert (Hi : initialize e shipped_config
               = (fst (initialize e shipped_config), inr tt))
    by (vm_compute; reflexivity).
  assert (Hf : fetch_games e shipped_config
               = (fst (fetch_games e shipped_config), inr [game_a; game_b]))
    by (vm_compute; reflexivity).
  assert (Ha : analyse_and_save e shipped_config [game_a; game_b]
               = (fst (analyse_and_save e shipped_config [game_a; game_b]),
                  inr (Some (output_path e shipped_config))))
    by (vm_compute; reflexivity).
  do 4 eexists. split; [exact Hi |]. split; [exact Hf |]. split; [exact Ha |].
  refine (proj2 (output_object_contents e shipped_config) _ _ _ _ _ Hi Hf _ Ha).
  discriminate.
Defined.

(** C5: in every object the script serializes, 'total_games' of the
    metadata is the length of the list stored under 'games'. *)
Theorem total_games_is_length_of_games e cfg path data :
  (path, data) ∈ dumped (fst (script e cfg)) ->
  exists d metadata games,
    data = VDict d
    /\ d !! "metadata" = Some (VDict metadata)
    /\ d !! "games" = Some (VList games)
    /\ metadata !! "total_games" = Some (VInt (Z.of_nat (length games))).
Proof.
  intros Hin.
  destruct (script_dumped e cfg path data Hin)
    as (t0 & t1 & all_games & ma & _ & _ & _ & _ & _ & -> & _).
  exists (output_data e cfg ma all_games), (metadata e cfg all_games), all_games.
  split; [reflexivity |]. unfold output_data, metadata. split; [| split].
  - apply lookup_insert_eq.
  - do 2 (rewrite lookup_insert_ne by discriminate). apply lookup_insert_eq.
  - do 5 (rewrite lookup_insert_ne by discriminate). apply lookup_insert_eq.
Qed.

Lemma total_games_is_length_of_games_witness :
  let e := sample_env fetch_january aggregate_ok None None in
  let path := output_path e shipped_config in
  let data := VDict (output_data e shipped_config empty_analysis
                       [game_a; game_b]) in
  (path, data) ∈ dumped (fst (script e shipped_config))
  /\ exists d metadata games,
       data = VDict d
       /\ d !! "metadata" = Some (VDict metadata)
       /\ d !! "games" = Some (VList games)
       /\ metadata !! "total_games" = Some (VInt (Z.of_nat (length games))).
Proof.
  cbv zeta.
  assert (Hin : (output_path (sample_env fetch_january aggregate_ok None None)
                   shipped_config,
                 VDict (output_data
                          (sample_env fetch_january aggregate_ok None None)
                          shipped_config empty_analysis [game_a; game_b]))
                ∈ dumped (fst (script
                                 (sample_env fetch_january aggregate_ok None None)
                                 shipped_config)))
    by (vm_compute; apply list_elem_of_here).
  split; [exact Hin |].
  exact (total_games_is_length_of_games _ _ _ _ Hin).
Defined.

(** ** The aggregation call *)

(** C6: in every run, either the aggregation is never called, and then the
    fetch phase did not end with a non-empty list; or the fetch phase ended
    with a non-empty list and the aggregation is called exactly once, with
    that list and the configured user name, after the whole fetch phase:
    every fetch attempt of the run lies before the call. *)
Theorem aggregation_called_once_after_fetching e cfg :
  (aggregate_calls (fst (script e cfg)) = []
   /\ forall t0 t1 game games,
        initialize e cfg = (t0, inr tt) ->
        fetch_games e cfg = (t1, inr (game :: games)) -> False)
  \/ (exists t0 t1 all_games pre post,
        initialize e cfg = (t0, inr tt)
        /\ fetch_games e cfg = (t1, inr all_games)
        /\ all_games <> []
        /\ fst (script e cfg)
           = t0 ++ t1 ++ pre ++ EAggregate all_games (USERNAME cfg) :: post
        /\ aggregate_calls (fst (script e cfg)) = [(all_games, USERNAME cfg)]
        /\ fetches (fst (script e cfg)) = fetches t1
        /\ fetches post = []).
Proof.
  unfold aggregate_calls, fetches.
  rewrite !script_readings by reflexivity.
  destruct (run_cases e cfg)
    as [(Ha & _ & _ & Hno) | (t0 & t1 & all_games & Hi & Hf & Hne)];
    [left; auto |].
  right.
  destruct (main_with_games e cfg t0 t1 all_games Hi Hf Hne)
    as (Hmain & Hfe & Hag & rest & He & _ & _ & Hrest).
  destruct (analyse_and_save_trace e cfg all_games)
    as (l1 & l2 & post & Ht & Hpost).
  rewrite He in Hpost. injection Hpost as Hpost.
  assert (Hfp : omap fetch_of post = []).
  { rewrite <- (omap_effects fetch_of post) by reflexivity. rewrite Hpost.
    destruct Hrest as [-> | (ma & _ & [-> | ->])]; reflexivity. }
  destruct (script_tail e cfg) as (tail & Hs & Htail).
  exists t0, t1, all_games, [EPrint l1; EPrint l2], (post ++ tail).
  split; [exact Hi |]. split; [exact Hf |]. split; [exact Hne |].
  split.
  { rewrite Hs, Hmain. cbn [fst]. rewrite Ht. cbn.
    now rewrite <- !app_assoc. }
  split; [exact Hag |]. split; [exact Hfe |].
  rewrite omap_app, Hfp, Htail. reflexivity.
Qed.

(** ** Unhandled exceptions *)

Section Failures.

Variable e : env.
Variable cfg : config.
Variable all_games : list value.

Lemma aggregation_failure_propagates ex :
  aggregate_mistake_analysis e all_games (USERNAME cfg) = inl ex ->
  exists t, analyse_and_save e cfg all_games = (t, inl ex).
Proof.
  intros H. destruct (run_analysis_raises e cfg all_games ex H) as [t Ht].
  exists t. unfold analyse_and_save. now rewrite Ht.
Qed.

Lemma save_failure_propagates ta mistake_analysis td ex :
  run_analysis e cfg all_games = (ta, inr mistake_analysis) ->
  display_summary e mistake_analysis = (td, inr tt) ->
  open_w e (output_path e cfg) = Some ex
  \/ (open_w e (output_path e cfg) = None
      /\ json_dump e (output_path e cfg)
           (VDict (output_data e cfg mistake_analysis all_games))
         = Some ex) ->
  exists t, analyse_and_save e cfg all_games = (t, inl ex).
Proof.
  intros Hr Hd Hfail. unfold analyse_and_save.
  rewrite (bind_returns _ _ _ _ Hr), (bind_returns _ _ _ _ Hd).
  cbn [fst snd]. rewrite bind_unfold.
  pose proof (save_result e cfg mistake_analysis all_games) as Hres.
  cbn zeta in Hres.
  destruct Hfail as [Ho | [Ho Hj]]; rewrite Ho in Hres; try rewrite Hj in Hres;
    rewrite Hres; eauto.
Qed.

End Failures.

(** C8: when the run has found games and the analysis, the summary or the
    saving raises, the script's trace is that of the run so far followed by
    the error line with the exception's text and the traceback, and the
    exit status is 1.  That is the case in particular when the aggregation
    call raises, when opening the output file raises, and when dumping the
    object raises. *)
Theorem unhandled_exception_exits_with_one e cfg t0 t1 all_games :
  initialize e cfg = (t0, inr tt) ->
  fetch_games e cfg = (t1, inr all_games) ->
  all_games <> [] ->
  (forall t2 ex,
      analyse_and_save e cfg all_games = (t2, inl ex) ->
      script e cfg =
      (t0 ++ t1 ++ t2
       ++ [EPrint (nl +:+ "✗ Error: " +:+ exn_str ex); ETraceback ex], 1))
  /\ (forall ex,
        aggregate_mistake_analysis e all_games (USERNAME cfg) = inl ex ->
        exists t2, analyse_and_save e cfg all_games = (t2, inl ex))
  /\ (forall ta mistake_analysis td ex,
        run_analysis e cfg all_games = (ta, inr mistake_analysis) ->
        display_summary e mistake_analysis = (td, inr tt) ->
        open_w e (output_path e cfg) = Some ex
        \/ (open_w e (output_path e cfg) = None
            /\ json_dump e (output_path e cfg)
                 (VDict (output_data e cfg mistake_analysis all_games))
               = Some ex) ->
        exists t2, analyse_and_save e cfg all_games = (t2, inl ex)).
Proof.
  intros Hi Hf Hne. split; [| split].
  - intros t2 ex Ha.
    destruct (main_with_games e cfg t0 t1 all_games Hi Hf Hne) as (Hmain & _).
    rewrite Ha in Hmain. cbn [fst snd] in Hmain.
    rewrite (script_of_main e cfg _ _ Hmain). now rewrite <- !app_assoc.
  - apply aggregation_failure_propagates.
  - apply save_failure_propagates.
Qed.

Lemma unhandled_exception_exits_with_one_witness :
  let e := sample_env fetch_january aggregate_crash None None in
  snd (initialize e shipped_config) = inr tt
  /\ snd (fetch_games e shipped_config) = inr [game_a; game_b]
  /\ snd (analyse_and_save e shipped_config [game_a; game_b])
     = inl (Exn "RuntimeError" "engine process died")
  /\ snd (script e shipped_config) = 1.
Proof.
  cbv zeta.
  pose (e := sample_env fetch_january aggregate_crash None None).
  assert (Hi : initialize e shipped_config
               = (fst (initialize e shipped_config), inr tt))
    by (vm_compute; reflexivity).
  assert (Hf : fetch_games e shipped_config
               = (fst (fetch_games e shipped_config), inr [game_a; game_b]))
    by (vm_compute; reflexivity).
  assert (Ha : analyse_and_save e shipped_config [game_a; game_b]
               = (fst (analyse_and_save e shipped_config [game_a; game_b]),
                  inl (Exn "RuntimeError" "engine process died")))
    by (vm_compute; reflexivity).
  assert (Hne : [game_a; game_b] <> []) by discriminate.
  split; [exact (f_equal snd Hi) |]. split; [exact (f_equal snd Hf) |].
  split; [exact (f_equal snd Ha) |].
  exact (f_equal snd
           (proj1 (unhandled_exception_exits_with_one e shipped_config
                     _ _ _ Hi Hf Hne) _ _ Ha)).
Defined.

(** ** Records without end time *)

(** C9: in a zone less than a day from UTC and for a range starting in a
    year after 1970, a record that lacks the end-time field gets the date
    of the epoch (time stamp 0) without an error, that date is out of
    range, the filter goes on with the other records as if the record were
    not there, and no run accumulates the record, so it reaches neither
    the analysis nor the output. *)
Theorem undated_record_is_excluded e cfg start end_ (d : gmap string value) :
  -86400 < utcoffset e 0 < 86400 ->
  1970 < datetime.year start ->
  d !! "end_time" = None ->
  game_date e (VDict d) = datetime.of_epoch (utcoffset e) 0 0
  /\ (exists date,
        game_date e (VDict d) = inr date /\ in_range start end_ date = false)
  /\ (forall rest filtered_games,
        filter_games e start end_ (VDict d :: rest) filtered_games
        = filter_games e start end_ rest filtered_games)
  /\ (forall t all_games,
        datetime.strptime (START_DATE cfg) = inr start ->
        datetime.strptime (END_DATE cfg) = inr end_ ->
        fetch_games e cfg = (t, inr all_games) ->
        VDict d ∉ all_games).
Proof.
  intros Hoff Hyear Hd.
  pose proof (game_date_undated e d Hd) as Hdate.
  destruct (of_epoch_zero (utcoffset e) Hoff) as (date & Hepoch & Hy).
  assert (Hout : in_range start end_ date = false).
  { unfold in_range. rewrite le_year_lt by lia. reflexivity. }
  split; [exact Hdate |]. split; [| split].
  - exists date. rewrite Hdate. auto.
  - intros rest acc. cbn [filter_games]. rewrite Hdate, Hepoch, Hout.
    reflexivity.
  - intros t all_games Hs He Hf Hin.
    destruct (accumulated_in_range e cfg start end_ Hs He t all_games _ Hf Hin)
      as (date' & Hd' & Hin').
    rewrite Hdate, Hepoch in Hd'. injection Hd' as <-. congruence.
Qed.

Lemma undated_record_is_excluded_witness :
  let e := sample_env fetch_with_undated aggregate_ok None None in
  let start := datetime.mk 2026 1 1 0 0 0 0 in
  let end_ := datetime.mk 2026 1 31 0 0 0 0 in
  let d : gmap string value :=
    <["url" := VStr "https://www.chess.com/game/live/4"]> ∅ in
  -86400 < utcoffset e 0 < 86400
  /\ 1970 < datetime.year start
  /\ d !! "end_time" = None
  /\ game_date e (VDict d) = inr (datetime.mk 1970 1 1 7 0 0 0)
  /\ filter_games e start end_ [VDict d; game_a] []
     = filter_games e start end_ [game_a] [].
Proof.
  cbv zeta.
  pose (e := sample_env fetch_with_undated aggregate_ok None None).
  pose (d := <["url" := VStr "https://www.chess.com/game/live/4"]> ∅
             : gmap string value).
  assert (Hoff : -86400 < utcoffset e 0 < 86400) by (cbn; lia).
  assert (Hyear : 1970 < datetime.year (datetime.mk 2026 1 1 0 0 0 0))
    by (cbn; lia).
  assert (Hd : d !! "end_time" = None) by reflexivity.
  pose proof (undated_record_is_excluded e shipped_config
                (datetime.mk 2026 1 1 0 0 0 0) (datetime.mk 2026 1 31 0 0 0 0)
                d Hoff Hyear Hd) as (Hdate & _ & Hskip & _).
  split; [exact Hoff |]. split; [exact Hyear |]. split; [exact Hd |].
  split; [exact Hdate |].
  exact (Hskip [game_a] []).
Defined.

(** ** The file effect *)

(** C10: when the fetch phase ends with an empty list, the run calls no
    aggregation, opens no file and dumps nothing, and [main] (once the
    services are constructed) returns [None] right after its no-games
    message; and a file is opened for writing only at the output path and
    only in a run whose fetch phase ended with at least one game. *)
Theorem no_games_no_analysis_no_file e cfg :
  (forall t1,
      fetch_games e cfg = (t1, inr []) ->
      aggregate_calls (fst (script e cfg)) = []
      /\ opened (fst (script e cfg)) = []
      /\ dumped (fst (script e cfg)) = []
      /\ forall t0,
           initialize e cfg = (t0, inr tt) ->
           main e cfg
           = (t0 ++ t1 ++ [EPrint (nl +:+ "✗ No games found. Exiting.")],
              inr None))
  /\ (forall path,
        path ∈ opened (fst (script e cfg)) ->
        path = output_path e cfg
        /\ exists t1 game games,
             fetch_games e cfg = (t1, inr (game :: games))).
Proof.
  unfold aggregate_calls, opened, dumped.
  rewrite !script_readings by reflexivity.
  split.
  - intros t1 Hf.
    destruct (main_quiet_without_games e cfg) as (Ha & Ho & Hd).
    { intros t0 t1' game games _ Hf'. rewrite Hf in Hf'. discriminate. }
    repeat (split; [assumption |]).
    intros t0 Hi. unfold main.
    rewrite (bind_returns _ _ _ _ Hi), (bind_returns _ _ _ _ Hf).
    reflexivity.
  - intros path Hin.
    destruct (run_cases e cfg)
      as [(_ & Ho & _) | (t0 & t1 & all_games & Hi & Hf & Hne)].
    { unfold opened in Ho. rewrite Ho in Hin. inversion Hin. }
    destruct (main_with_games e cfg t0 t1 all_games Hi Hf Hne)
      as (_ & _ & _ & rest & _ & Ho & _ & Hrest).
    unfold opened in Ho. rewrite Ho in Hin.
    destruct all_games as [| game games]; [congruence |].
    destruct Hrest as [-> | (ma & _ & [-> | ->])]; cbn in Hin;
      [inversion Hin | |];
      apply list_elem_of_singleton in Hin; eauto.
Qed.

Lemma no_games_no_analysis_no_file_witness :
  let e := sample_env fetch_nothing aggregate_ok None None in
  snd (fetch_games e shipped_config) = inr []
  /\ aggregate_calls (fst (script e shipped_config)) = []
  /\ opened (fst (script e shipped_config)) = []
  /\ dumped (fst (script e shipped_config)) = [].
Proof.
  cbv zeta.
  pose (e := sample_env fetch_nothing aggregate_ok None None).
  assert (Hf : fetch_games e shipped_config
               = (fst (fetch_games e shipped_config), inr []))
    by (vm_compute; reflexivity).
  split; [exact (f_equal snd Hf) |].
  destruct (proj1 (no_games_no_analysis_no_file e shipped_config) _ Hf)
    as (Ha & Ho & Hd & _).
  auto.
Defined.

(** ** Month iteration from a day every month has *)

Lemma new_inr y m d h mi s us dt :
  datetime.new y m d h mi s us = inr dt ->
  dt = datetime.mk y m d h mi s us
  /\ 1 <= y <= 9999 /\ 1 <= m <= 12 /\ 1 <= d <= datetime.days_in_month y m.
Proof.
  unfold datetime.new, datetime.check_date_fields, datetime.MINYEAR,
    datetime.MAXYEAR.
  destruct ((1 <=? y) && (y <=? 9999)) eqn:Hy; cbn [negb]; [| discriminate].
  destruct ((1 <=? m) && (m <=? 12)) eqn:Hm; cbn [negb]; [| discriminate].
  destruct ((1 <=? d) && (d <=? datetime.days_in_month y m)) eqn:Hd;
    cbn [negb]; [| discriminate].
  destruct (datetime.check_time_fields h mi s us); [discriminate |].
  intros [= <-]. split; [reflexivity |]. lia.
Qed.

Lemma strptime_inr s dt :
  datetime.strptime s = inr dt ->
  exists y m d,
    dt = datetime.mk y m d 0 0 0 0
    /\ 1 <= y <= 9999 /\ 1 <= m <= 12 /\ 1 <= d <= datetime.days_in_month y m.
Proof.
  unfold datetime.strptime.
  repeat match goal with
         | |- context [match ?x with _ => _ end] =>
             lazymatch x with
             | context [match _ with _ => _ end] => fail
             | datetime.new _ _ _ _ _ _ _ => fail
             | _ => destruct x
             end
         end; try discriminate.
  intros H. apply new_inr in H. eauto.
Qed.

Lemma days_in_month_ge_28 y m : 28 <= datetime.days_in_month y m.
Proof.
  unfold datetime.days_in_month.
  destruct (m =? 2); [destruct (datetime.is_leap y); lia |].
  destruct ((m =? 4) || (m =? 6) || (m =? 9) || (m =? 11)); lia.
Qed.

Lemma new_midnight y m d :
  1 <= y <= 9999 -> 1 <= m <= 12 -> 1 <= d <= 28 ->
  datetime.new y m d 0 0 0 0 = inr (datetime.mk y m d 0 0 0 0).
Proof.
  intros Hy Hm Hd. pose proof (days_in_month_ge_28 y m).
  unfold datetime.new, datetime.check_date_fields, datetime.MINYEAR,
    datetime.MAXYEAR.
  replace ((1 <=? y) && (y <=? 9999)) with true by lia.
  replace ((1 <=? m) && (m <=? 12)) with true by lia.
  replace ((1 <=? d) && (d <=? datetime.days_in_month y m)) with true by lia.
  reflexivity.
Qed.

(** Between two midnights, the comparison of dates is that of the
    (year, month, day) triples. *)
Lemma le_midnight cy cm cd ey em ed :
  datetime.le (datetime.mk cy cm cd 0 0 0 0) (datetime.mk ey em ed 0 0 0 0)
  = true
  <-> cy < ey \/ (cy = ey /\ (cm < em \/ (cm = em /\ cd <= ed))).
Proof.
  unfold datetime.le, datetime.fields.
  cbn [datetime.lex_compare datetime.year datetime.month datetime.day
       datetime.hour datetime.minute datetime.second datetime.microsecond].
  destruct (cy ?= ey) eqn:Hy; cbv beta iota;
    [apply Z.compare_eq in Hy | apply -> Z.compare_lt_iff in Hy
    | apply -> Z.compare_gt_iff in Hy];
    [| split; [intros _; lia | reflexivity] | split; [discriminate | lia]].
  destruct (cm ?= em) eqn:Hm; cbv beta iota;
    [apply Z.compare_eq in Hm | apply -> Z.compare_lt_iff in Hm
    | apply -> Z.compare_gt_iff in Hm];
    [| split; [intros _; lia | reflexivity] | split; [discriminate | lia]].
  destruct (cd ?= ed) eqn:Hd; cbv beta iota;
    [apply Z.compare_eq in Hd | apply -> Z.compare_lt_iff in Hd
    | apply -> Z.compare_gt_iff in Hd];
    [| split; [intros _; lia | reflexivity] | split; [discriminate | lia]].
  cbn. split; [intros _; lia | reflexivity].
Qed.

Section FirstOfMonth.

Variable e : env.
Variable cfg : config.
Variables start end_ : datetime.t.
Variables ey em ed day : Z.
Hypothesis Hend : end_ = datetime.mk ey em ed 0 0 0 0.
Hypothesis Hey : 1 <= ey <= 9999.
Hypothesis Hem : 1 <= em <= 12.
Hypothesis Hlast : ey < 9999 \/ em < 12.
Hypothesis Hday : 1 <= day <= 28.
Hypothesis Hday_end : day <= ed.

(** From a cursor at midnight of day [day] of a month, the loop completes
    and attempts the months up to that of [end_], one after the other. *)
Lemma fetch_loop_months (n : nat) :
  forall cy cm all_games,
    1 <= cy <= 9999 -> 1 <= cm <= 12 ->
    n = Z.to_nat (12 * (ey - cy) + em - cm + 1) ->
    fetches (fst (fetch_loop e cfg start end_
                    (datetime.mk cy cm day 0 0 0 0) all_games))
    = month_range cy cm n
    /\ exists all_games',
         snd (fetch_loop e cfg start end_
                (datetime.mk cy cm day 0 0 0 0) all_games)
         = inr all_games'.
Proof using Hend Hey Hem Hlast Hday Hday_end.
  induction n as [| n IH]; intros cy cm all_games Hcy Hcm Hn;
    rewrite fetch_loop_while.
  - assert (Hgt : datetime.le (datetime.mk cy cm day 0 0 0 0) end_ = false).
    { destruct (datetime.le _ end_) eqn:Hle; [| reflexivity].
      rewrite Hend in Hle. apply le_midnight in Hle. lia. }
    rewrite Hgt. cbn. eauto.
  - assert (Hle : datetime.le (datetime.mk cy cm day 0 0 0 0) end_ = true).
    { rewrite Hend. apply le_midnight. lia. }
    rewrite Hle. unfold next_month, datetime.replace.
    cbn [datetime.year datetime.month datetime.day datetime.hour
         datetime.minute datetime.second datetime.microsecond].
    cbn [month_range].
    destruct (cm =? 12) eqn:Hdec.
    + apply Z.eqb_eq in Hdec. subst cm.
      rewrite new_midnight by lia. step_month.
      cbn [fst snd datetime.year datetime.month].
      destruct (IH (cy + 1) 1
                  (all_games
                   ++ month_games e cfg start end_ (cy, 12)))
        as [IHf IHr]; [lia | lia | lia |].
      rewrite fetches_app, IHf. split; [reflexivity | exact IHr].
    + apply Z.eqb_neq in Hdec.
      rewrite new_midnight by lia. step_month.
      cbn [fst snd datetime.year datetime.month].
      destruct (IH cy (cm + 1)
                  (all_games
                   ++ month_games e cfg start end_ (cy, cm)))
        as [IHf IHr]; [lia | lia | lia |].
      rewrite fetches_app, IHf. split; [reflexivity | exact IHr].
Qed.

End FirstOfMonth.

Lemma month_range_length y m n : length (month_range y m n) = n.
Proof.
  revert y m. induction n as [| n IH]; intros y m; cbn; [reflexivity |].
  destruct (m =? 12); now rewrite IH.
Qed.

(** Months of a range are in strictly increasing order of 12*year+month. *)
Lemma month_range_lookup y m n i ym :
  1 <= m <= 12 ->
  month_range y m n !! i = Some ym ->
  12 * ym.1 + ym.2 = 12 * y + m + Z.of_nat i /\ 1 <= ym.2 <= 12.
Proof.
  revert y m i. induction n as [| n IH]; intros y m i Hm; cbn; [discriminate |].
  destruct i as [| i]; cbn.
  - intros [= <-]. cbn. lia.
  - destruct (m =? 12) eqn:Hdec; intros H; apply IH in H; lia.
Qed.

(** Month iteration, where the code does it right: when the start date's
    day of month is at most 28 and at most the end date's day (the first of
    a month, as shipped, always is), the start is not after the end, and the
    end is not in December 9999, the fetch phase completes and attempts
    exactly the months from the start's month through the end's month, each
    once and in chronological order, whatever the collaborator answers. *)
Theorem month_iteration_from_common_day e cfg start end_ :
  datetime.strptime (START_DATE cfg) = inr start ->
  datetime.strptime (END_DATE cfg) = inr end_ ->
  datetime.le start end_ = true ->
  datetime.day start <= 28 ->
  datetime.day start <= datetime.day end_ ->
  datetime.year end_ < 9999 \/ datetime.month end_ < 12 ->
  fetches (fst (fetch_games e cfg)) = months_between start end_
  /\ (exists all_games, snd (fetch_games e cfg) = inr all_games)
  /\ Z.of_nat (length (months_between start end_))
     = 12 * (datetime.year end_ - datetime.year start)
       + datetime.month end_ - datetime.month start + 1
  /\ forall i ym,
       months_between start end_ !! i = Some ym ->
       12 * ym.1 + ym.2
       = 12 * datetime.year start + datetime.month start + Z.of_nat i
       /\ 1 <= ym.2 <= 12.
Proof.
  intros Hs He Hle Hd28 Hde Hlast.
  destruct (strptime_inr _ _ Hs) as (sy & sm & sd & -> & Hsy & Hsm & Hsd).
  destruct (strptime_inr _ _ He) as (ey & em & ed & -> & Hey & Hem & Hed).
  cbn [datetime.year datetime.month datetime.day] in *.
  apply le_midnight in Hle.
  destruct (fetch_loop_months e cfg (datetime.mk sy sm sd 0 0 0 0)
              (datetime.mk ey em ed 0 0 0 0) ey em ed sd eq_refl Hey Hem Hlast
              ltac:(lia) Hde _ sy sm [] Hsy Hsm eq_refl)
    as (Hf & all_games & Hr).
  unfold months_between.
  cbn [datetime.year datetime.month datetime.day].
  split; [| split; [| split]].
  - rewrite <- Hf. unfold fetch_games. rewrite Hs, He.
    unfold lift, print, emit, ret, bind.
    destruct (fetch_loop e cfg _ _ _ []) as [tl [ex | games]];
      cbn; [reflexivity |].
    unfold fetches. rewrite omap_app. cbn. now rewrite app_nil_r.
  - exists all_games. unfold fetch_games. rewrite Hs, He.
    unfold lift, print, emit, ret, bind.
    destruct (fetch_loop e cfg _ _ _ []) as [tl [ex | games]];
      cbn in *; congruence.
  - rewrite month_range_length. lia.
  - intros i ym. now apply month_range_lookup.
Qed.

Lemma month_iteration_from_common_day_witness :
  let e := sample_env fetch_february_down aggregate_ok None None in
  let cfg := config_for "2025-11-01" "2026-03-31" in
  let start := datetime.mk 2025 11 1 0 0 0 0 in
  let end_ := datetime.mk 2026 3 31 0 0 0 0 in
  datetime.strptime (START_DATE cfg) = inr start
  /\ datetime.strptime (END_DATE cfg) = inr end_
  /\ datetime.le start end_ = true
  /\ datetime.day start <= 28
  /\ datetime.day start <= datetime.day end_
  /\ (datetime.year end_ < 9999 \/ datetime.month end_ < 12)
  /\ months_between start end_
     = [(2025, 11); (2025, 12); (2026, 1); (2026, 2); (2026, 3)]
  /\ fetches (fst (fetch_games e cfg)) = months_between start end_.
Proof.
  cbv zeta.
  assert (H28 : datetime.day (datetime.mk 2025 11 1 0 0 0 0) <= 28)
    by (cbn; lia).
  assert (Hde : datetime.day (datetime.mk 2025 11 1 0 0 0 0)
                <= datetime.day (datetime.mk 2026 3 31 0 0 0 0))
    by (cbn; lia).
  assert (Hlast : datetime.year (datetime.mk 2026 3 31 0 0 0 0) < 9999
                  \/ datetime.month (datetime.mk 2026 3 31 0 0 0 0) < 12)
    by (left; cbn; lia).
  split; [reflexivity |]. split; [reflexivity |]. split; [reflexivity |].
  split; [exact H28 |]. split; [exact Hde |]. split; [exact Hlast |].
  split; [reflexivity |].
  exact (proj1 (month_iteration_from_common_day
                  (sample_env fetch_february_down aggregate_ok None None)
                  (config_for "2025-11-01" "2026-03-31")
                  (datetime.mk 2025 11 1 0 0 0 0)
                  (datetime.mk 2026 3 31 0 0 0 0)
                  eq_refl eq_refl eq_refl H28 Hde Hlast)).
Defined.

(** ** The order of a run that saves a file *)

Lemma initialize_effects e cfg t0 :
  initialize e cfg = (t0, inr tt) ->
  effects t0 =
  [ENewChessService; ENewAnalyticsService (STOCKFISH_PATH cfg) 12 true].
Proof.
  unfold initialize, construct, call, print, emit, bind.
  destruct (chess_service_init e);
    destruct (analytics_service_init e (STOCKFISH_PATH cfg) 12 true);
    cbn; intros [= <-]; reflexivity.
Qed.

(** A run that finds games and whose analysis and saving complete does, in
    this order and besides printing: construct the two services (the
    analytics service with the configured engine path, depth 12, engine
    enabled), attempt the fetches, call the aggregation once on the
    accumulated list, open the output file and dump the output object; it
    then reports the path and exits with status 0. *)
Theorem saving_run_is_sequential e cfg t0 t1 all_games t2 path :
  initialize e cfg = (t0, inr tt) ->
  fetch_games e cfg = (t1, inr all_games) ->
  all_games <> [] ->
  analyse_and_save e cfg all_games = (t2, inr path) ->
  exists mistake_analysis,
    aggregate_mistake_analysis e all_games (USERNAME cfg) = inr mistake_analysis
    /\ path = Some (output_path e cfg)
    /\ script e cfg
       = (t0 ++ t1 ++ t2
          ++ [EPrint (nl +:+ "Success! File saved at: " +:+ output_path e cfg)],
          0)
    /\ effects (fst (script e cfg))
       = [ENewChessService; ENewAnalyticsService (STOCKFISH_PATH cfg) 12 true]
         ++ map (fun ym => EFetch (USERNAME cfg) ym.1 ym.2) (fetches t1)
         ++ [EAggregate all_games (USERNAME cfg);
             EOpenW (output_path e cfg);
             EJsonDump (output_path e cfg)
               (VDict (output_data e cfg mistake_analysis all_games))].
Proof.
  intros Hi Hf Hne Ha.
  destruct (analyse_and_save_returns e cfg all_games t2 path Ha)
    as (ma & Hma & -> & He).
  exists ma. split; [assumption |]. split; [reflexivity |].
  destruct (main_with_games e cfg t0 t1 all_games Hi Hf Hne) as (Hmain & _).
  rewrite Ha in Hmain. cbn [fst snd] in Hmain.
  assert (Hs : script e cfg
               = (t0 ++ t1 ++ t2
                  ++ [EPrint (nl +:+ "Success! File saved at: "
                              +:+ output_path e cfg)], 0)).
  { rewrite (script_of_main e cfg _ _ Hmain). cbn [default].
    now rewrite <- !app_assoc. }
  split; [exact Hs |].
  rewrite Hs. cbn [fst]. rewrite !effects_app.
  rewrite (initialize_effects e cfg t0 Hi), He.
  pose proof (fetch_games_effects e cfg) as Hfe. rewrite Hf in Hfe.
  cbn [fst] in Hfe. rewrite Hfe. cbn. rewrite ?app_nil_r. reflexivity.
Qed.

Lemma saving_run_is_sequential_witness :
  let e := sample_env fetch_january aggregate_ok None None in
  snd (initialize e shipped_config) = inr tt
  /\ snd (fetch_games e shipped_config) = inr [game_a; game_b]
  /\ snd (analyse_and_save e shipped_config [game_a; game_b])
     = inr (Some (output_path e shipped_config))
  /\ effects (fst (script e shipped_config))
     = [ENewChessService;
        ENewAnalyticsService (STOCKFISH_PATH shipped_config) 12 true;
        EFetch "jay_fh" 2026 1;
        EAggregate [game_a; game_b] "jay_fh";
        EOpenW (output_path e shipped_config);
        EJsonDump (output_path e shipped_config)
          (VDict (output_data e shipped_config empty_analysis
                    [game_a; game_b]))].
Proof.
  cbv zeta.
  pose (e := sample_env fetch_january aggregate_ok None None).
  assert (Hi : initialize e shipped_config
               = (fst (initialize e shipped_config), inr tt))
    by (vm_compute; reflexivity).
  assert (Hf : fetch_games e shipped_config
               = (fst (fetch_games e shipped_config), inr [game_a; game_b]))
    by (vm_compute; reflexivity).
  assert (Ha : analyse_and_save e shipped_config [game_a; game_b]
               = (fst (analyse_and_save e shipped_config [game_a; game_b]),
                  inr (Some (output_path e shipped_config))))
    by (vm_compute; reflexivity).
  assert (Hne : [game_a; game_b] <> []) by discriminate.
  split; [exact (f_equal snd Hi) |]. split; [exact (f_equal snd Hf) |].
  split; [exact (f_equal snd Ha) |].
  destruct (saving_run_is_sequential e shipped_config _ _ _ _ _ Hi Hf Hne Ha)
    as (ma & Hma & _ & _ & He).
  injection Hma as <-.
  etransitivity; [exact He | vm_compute; reflexivity].
Defined.

(** * Further properties of the script *)

(** ** The filter, as a whole *)

(** When every end time converts, the filter returns its accumulator
    followed by the records in range, in the order and with the
    multiplicity the month gave them. *)
Lemma filter_games_is_filter e start end_ games filtered_games :
  all_dated e games ->
  filter_games e start end_ games filtered_games
  = inr (filtered_games ++ List.filter (game_in_range e start end_) games).
Proof.
  revert filtered_games.
  induction games as [| game rest IH]; intros acc Hall; cbn [filter_games].
  - cbn. now rewrite app_nil_r.
  - inversion Hall as [| ? ? [d Hd] Hrest]; subst.
    rewrite Hd, (IH _ Hrest). cbn [List.filter]. unfold game_in_range at 2.
    rewrite Hd. destruct (in_range start end_ d); [| reflexivity].
    now rewrite <- app_assoc.
Qed.

(** The filter raises what the first record that does not convert raises,
    whatever follows it. *)
Lemma filter_games_first_failure e start end_ good bad rest filtered_games ex :
  all_dated e good ->
  game_date e bad = inl ex ->
  filter_games e start end_ (good ++ bad :: rest) filtered_games = inl ex.
Proof.
  revert filtered_games.
  induction good as [| game good IH]; intros acc Hall Hbad; cbn [app filter_games].
  - now rewrite Hbad.
  - inversion Hall as [| ? ? [d Hd] Hgood]; subst. rewrite Hd. now apply IH.
Qed.

(** The date filter of one month: if the end time of every record
    converts, the result is the given list followed by exactly the records
    whose date is in range, in their original order, duplicates kept; if
    not, the filter raises the exception of the first record that fails,
    and nothing is returned. *)
Theorem filter_keeps_order_or_raises e start end_ filtered_games :
  (forall games,
      all_dated e games ->
      filter_games e start end_ games filtered_games
      = inr (filtered_games ++ List.filter (game_in_range e start end_) games))
  /\ (forall good bad rest ex,
        all_dated e good ->
        game_date e bad = inl ex ->
        filter_games e start end_ (good ++ bad :: rest) filtered_games
        = inl ex).
Proof.
  split.
  - intros games. apply filter_games_is_filter.
  - intros good bad rest ex. apply filter_games_first_failure.
Qed.

Lemma filter_keeps_order_or_raises_witness :
  let e := sample_env fetch_january aggregate_ok None None in
  let start := datetime.mk 2026 1 1 0 0 0 0 in
  let end_ := datetime.mk 2026 1 15 0 0 0 0 in
  all_dated e [game_b; game_a; game_b; game_a]
  /\ filter_games e start end_ [game_b; game_a; game_b; game_a] []
     = inr [game_a; game_a]
  /\ filter_games e start end_ [game_a; game_ms; game_b] []
     = inl (ValueError "year is out of range").
Proof.
  cbv zeta.
  pose (e := sample_env fetch_january aggregate_ok None None).
  assert (Hall : all_dated e [game_b; game_a; game_b; game_a]).
  { repeat constructor; eexists; vm_compute; reflexivity. }
  assert (Hone : all_dated e [game_a]).
  { repeat constructor; eexists; vm_compute; reflexivity. }
  destruct (filter_keeps_order_or_raises e (datetime.mk 2026 1 1 0 0 0 0)
              (datetime.mk 2026 1 15 0 0 0 0) []) as [Hkeep Hraise].
  split; [exact Hall |]. split.
  - etransitivity; [exact (Hkeep _ Hall) | vm_compute; reflexivity].
  - exact (Hraise [game_a] game_ms [game_b]
             (ValueError "year is out of range") Hone eq_refl).
Defined.

(** ** One month's line of output *)

(** A month whose fetch returns is reported on one line after its attempt:
    when every end time converts, a check-mark line with the month and the
    number of its records in range, and those records are appended to the
    accumulated list in their order; when the conversion of a record raises,
    a cross line with the month and that exception's text, as for a failed
    fetch, and the accumulated list is unchanged. *)
Theorem month_report e cfg start end_ current all_games games :
  get_games_by_month e (USERNAME cfg) (datetime.year current)
    (datetime.month current) = inr games ->
  let attempt :=
    EFetch (USERNAME cfg) (datetime.year current) (datetime.month current) in
  let kept := List.filter (game_in_range e start end_) games in
  (all_dated e games ->
   fetch_month e cfg start end_ current all_games
   = ([attempt;
       EPrint ("   ✓ " +:+ datetime.strftime_Y_m current +:+ ": "
               +:+ pretty (length kept) +:+ " games")],
      inr (all_games ++ kept)))
  /\ (forall good bad rest ex,
        games = good ++ bad :: rest ->
        all_dated e good ->
        game_date e bad = inl ex ->
        fetch_month e cfg start end_ current all_games
        = ([attempt;
            EPrint ("   ✗ " +:+ datetime.strftime_Y_m current +:+ ": "
                    +:+ exn_str ex)],
           inr all_games)).
Proof.
  intros Hg attempt kept. split.
  - intros Hall. unfold fetch_month. rewrite Hg.
    unfold call, lift, bind at 1, bind at 1.
    rewrite (filter_games_is_filter e start end_ games [] Hall).
    reflexivity.
  - intros good bad rest ex -> Hall Hbad. unfold fetch_month. rewrite Hg.
    unfold call, lift, bind at 1, bind at 1.
    rewrite (filter_games_first_failure e start end_ good bad rest [] ex Hall Hbad).
    reflexivity.
Qed.

Lemma month_report_witness :
  let e := sample_env fetch_with_bad_record aggregate_ok None None in
  let start := datetime.mk 2026 1 1 0 0 0 0 in
  let end_ := datetime.mk 2026 1 31 0 0 0 0 in
  get_games_by_month e "jay_fh" 2026 1 = inr [game_a; game_ms]
  /\ fetch_month e shipped_config start end_ start [game_b]
     = ([EFetch "jay_fh" 2026 1;
         EPrint "   ✗ 2026-01: year is out of range"],
        inr [game_b]).
Proof.
  cbv zeta.
  pose (e := sample_env fetch_with_bad_record aggregate_ok None None).
  assert (Hg : get_games_by_month e (USERNAME shipped_config)
                 (datetime.year (datetime.mk 2026 1 1 0 0 0 0))
                 (datetime.month (datetime.mk 2026 1 1 0 0 0 0))
               = inr [game_a; game_ms]) by reflexivity.
  assert (Hone : all_dated e [game_a]).
  { repeat constructor; eexists; vm_compute; reflexivity. }
  split; [reflexivity |].
  exact (proj2 (month_report e shipped_config (datetime.mk 2026 1 1 0 0 0 0)
                  (datetime.mk 2026 1 31 0 0 0 0)
                  (datetime.mk 2026 1 1 0 0 0 0) [game_b] _ Hg)
           [game_a] game_ms [] (ValueError "year is out of range")
           eq_refl Hone eq_refl).
Defined.

(** ** The end date is a midnight *)

Lemma le_same_day_later y m d h mi s us :
  0 <= h -> 0 <= mi -> 0 <= s -> 0 <= us ->
  0 < h \/ 0 < mi \/ 0 < s \/ 0 < us ->
  datetime.le (datetime.mk y m d h mi s us) (datetime.mk y m d 0 0 0 0) = false.
Proof.
  intros Hh Hmi Hs Hus Hpos. unfold datetime.le, datetime.fields.
  cbn [datetime.lex_compare datetime.year datetime.month datetime.day
       datetime.hour datetime.minute datetime.second datetime.microsecond].
  rewrite !Z.compare_refl.
  destruct (h ?= 0) eqn:Ch;
    [apply Z.compare_eq in Ch | apply -> Z.compare_lt_iff in Ch; lia
    | reflexivity].
  destruct (mi ?= 0) eqn:Cm;
    [apply Z.compare_eq in Cm | apply -> Z.compare_lt_iff in Cm; lia
    | reflexivity].
  destruct (s ?= 0) eqn:Cs;
    [apply Z.compare_eq in Cs | apply -> Z.compare_lt_iff in Cs; lia
    | reflexivity].
  destruct (us ?= 0) eqn:Cu;
    [apply Z.compare_eq in Cu; lia | apply -> Z.compare_lt_iff in Cu; lia
    | reflexivity].
Qed.

(** The end date parses to its midnight and the comparison is on full
    date-times: a game that ended on the end date itself at any time after
    00:00:00 is out of range, and no run accumulates it; only a game dated
    exactly at that midnight is within the end bound. *)
Theorem end_date_after_midnight_is_excluded e cfg start end_ game date :
  datetime.strptime (START_DATE cfg) = inr start ->
  datetime.strptime (END_DATE cfg) = inr end_ ->
  game_date e game = inr date ->
  datetime.year date = datetime.year end_ ->
  datetime.month date = datetime.month end_ ->
  datetime.day date = datetime.day end_ ->
  0 <= datetime.hour date -> 0 <= datetime.minute date ->
  0 <= datetime.second date -> 0 <= datetime.microsecond date ->
  0 < datetime.hour date \/ 0 < datetime.minute date
  \/ 0 < datetime.second date \/ 0 < datetime.microsecond date ->
  in_range start end_ date = false
  /\ in_range start end_ end_ = datetime.le start end_
  /\ forall t all_games,
       fetch_games e cfg = (t, inr all_games) -> game ∉ all_games.
Proof.
  intros Hs He Hd Hy Hm Hday Hh Hmi Hsec Hus Hpos.
  destruct (strptime_inr _ _ He) as (ey & em & ed & -> & _).
  destruct date as [y m d h mi s us].
  cbn [datetime.year datetime.month datetime.day datetime.hour
       datetime.minute datetime.second datetime.microsecond] in *.
  subst y m d.
  assert (Hout : in_range start (datetime.mk ey em ed 0 0 0 0)
                   (datetime.mk ey em ed h mi s us) = false).
  { unfold in_range. rewrite le_same_day_later by assumption.
    apply andb_false_r. }
  split; [exact Hout |]. split.
  - unfold in_range.
    replace (datetime.le (datetime.mk ey em ed 0 0 0 0)
               (datetime.mk ey em ed 0 0 0 0)) with true.
    + apply andb_true_r.
    + symmetry. apply le_midnight. lia.
  - intros t all_games Hf Hin.
    destruct (accumulated_in_range e cfg start _ Hs He t all_games _ Hf Hin)
      as (date' & Hd' & Hin').
    rewrite Hd in Hd'. injection Hd' as <-. congruence.
Qed.

Lemma end_date_after_midnight_is_excluded_witness :
  let e := sample_env fetch_last_day aggregate_ok None None in
  game_date e game_last_day = inr (datetime.mk 2026 1 31 7 0 0 0)
  /\ in_range (datetime.mk 2026 1 1 0 0 0 0) (datetime.mk 2026 1 31 0 0 0 0)
       (datetime.mk 2026 1 31 7 0 0 0) = false
  /\ snd (fetch_games e shipped_config) = inr [game_a].
Proof.
  cbv zeta.
  pose (e := sample_env fetch_last_day aggregate_ok None None).
  assert (Hd : game_date e game_last_day
               = inr (datetime.mk 2026 1 31 7 0 0 0)) by reflexivity.
  split; [exact Hd |]. split.
  - refine (proj1 (end_date_after_midnight_is_excluded e shipped_config
                     (datetime.mk 2026 1 1 0 0 0 0)
                     (datetime.mk 2026 1 31 0 0 0 0) game_last_day
                     (datetime.mk 2026 1 31 7 0 0 0)
                     eq_refl eq_refl Hd eq_refl eq_refl eq_refl
                     _ _ _ _ _)); cbn; lia.
  - vm_compute. reflexivity.
Defined.

(** ** Which months can be attempted at all *)

Lemma le_year_month c e :
  datetime.le c e = true ->
  datetime.year c < datetime.year e
  \/ (datetime.year c = datetime.year e
      /\ datetime.month c <= datetime.month e).
Proof.
  unfold datetime.le, datetime.fields. cbn [datetime.lex_compare].
  destruct (datetime.year c ?= datetime.year e) eqn:Cy;
    [apply Z.compare_eq in Cy | apply -> Z.compare_lt_iff in Cy; auto
    | discriminate].
  destruct (datetime.month c ?= datetime.month e) eqn:Cm;
    [apply Z.compare_eq in Cm; intros _; right; lia
    | apply -> Z.compare_lt_iff in Cm; intros _; right; lia
    | discriminate].
Qed.

Lemma next_month_inr current current' :
  next_month current = inr current' ->
  1 <= datetime.month current' <= 12
  /\ ((datetime.month current = 12
       /\ datetime.year current' = datetime.year current + 1
       /\ datetime.month current' = 1)
      \/ (datetime.month current <> 12
          /\ datetime.year current' = datetime.year current
          /\ datetime.month current' = datetime.month current + 1)).
Proof.
  unfold next_month, datetime.replace.
  destruct (datetime.month current =? 12) eqn:Hdec; intros H;
    apply new_inr in H as (-> & _ & Hm & _);
    cbn [datetime.year datetime.month]; (split; [exact Hm |]).
  - apply Z.eqb_eq in Hdec. auto.
  - apply Z.eqb_neq in Hdec. auto.
Qed.

Lemma month_range_one y m : month_range y m 1 = [(y, m)].
Proof. cbn. now destruct (m =? 12). Qed.

Section Attempts.

Variable e : env.
Variable cfg : config.
Variables start end_ : datetime.t.
Hypothesis Hem : 1 <= datetime.month end_ <= 12.

(** From any cursor in a valid month, the loop attempts consecutive months
    beginning with the cursor's, at least one when the cursor is not past
    the end, and never one after the month of the end date. *)
Lemma fetch_loop_attempts (n : nat) :
  forall current all_games,
    1 <= datetime.month current <= 12 ->
    (Z.to_nat (12 * (datetime.year end_ - datetime.year current)
               + datetime.month end_ - datetime.month current + 1) <= n)%nat ->
    exists k,
      fetches (fst (fetch_loop e cfg start end_ current all_games))
      = month_range (datetime.year current) (datetime.month current) k
      /\ (k <= Z.to_nat (12 * (datetime.year end_ - datetime.year current)
                         + datetime.month end_ - datetime.month current + 1))%nat
      /\ (datetime.le current end_ = true -> (1 <= k)%nat)
      /\ (datetime.le current end_ = false -> k = O).
Proof using Hem.
  induction n as [| n IH]; intros current all_games Hcm Hn;
    rewrite fetch_loop_while;
    destruct (datetime.le current end_) eqn:Hle;
    try (exists O; cbn; repeat split; [lia | discriminate]).
  - apply le_year_month in Hle. lia.
  - pose proof (le_year_month _ _ Hle) as Hym.
    destruct (next_month current) as [ex | current'] eqn:Hnext.
    + step_month. cbn [fst snd raise]. exists 1%nat.
      rewrite month_range_one, app_nil_r. cbn.
      repeat split; [lia | lia | discriminate].
    + destruct (next_month_inr _ _ Hnext) as [Hcm' Hstep].
      step_month. cbn [fst snd].
      destruct (IH current'
                  (all_games
                   ++ month_games e cfg start end_
                        (datetime.year current, datetime.month current))
                  Hcm' ltac:(lia)) as (k & Hk & Hbound & _).
      exists (S k). rewrite fetches_app, Hk. cbn [month_range].
      split; [| repeat split; [lia | lia | discriminate]].
      cbn. destruct Hstep as [(Hdec & -> & ->) | (Hdec & -> & ->)].
      * rewrite Hdec. reflexivity.
      * apply Z.eqb_neq in Hdec. rewrite Hdec. reflexivity.
Qed.

End Attempts.

(** For any two dates that parse, whatever the day of month of the start:
    the months the fetch phase attempts are consecutive calendar months
    beginning with the start date's month, every attempt carries the
    configured user name, no month after the end date's month is attempted,
    and the start's month is attempted if and only if the start is not after
    the end. *)
Theorem attempts_are_consecutive_months e cfg start end_ :
  datetime.strptime (START_DATE cfg) = inr start ->
  datetime.strptime (END_DATE cfg) = inr end_ ->
  exists k,
    fetches (fst (fetch_games e cfg))
    = month_range (datetime.year start) (datetime.month start) k
    /\ effects (fst (fetch_games e cfg))
       = map (fun ym => EFetch (USERNAME cfg) ym.1 ym.2)
           (month_range (datetime.year start) (datetime.month start) k)
    /\ Z.of_nat k
       <= Z.max 0 (12 * (datetime.year end_ - datetime.year start)
                   + datetime.month end_ - datetime.month start + 1)
    /\ (datetime.le start end_ = true -> (1 <= k)%nat)
    /\ (datetime.le start end_ = false -> k = O).
Proof.
  intros Hs He.
  destruct (strptime_inr _ _ Hs) as (sy & sm & sd & Hstart & _ & Hsm & _).
  destruct (strptime_inr _ _ He) as (ey & em & ed & Hend & _ & Hem & _).
  assert (Hsm' : 1 <= datetime.month start <= 12) by (subst start; exact Hsm).
  assert (Hem' : 1 <= datetime.month end_ <= 12) by (subst end_; exact Hem).
  destruct (fetch_loop_attempts e cfg start end_ Hem' _ start [] Hsm' (le_n _))
    as (k & Hk & Hbound & Hpos & Hzero).
  assert (Hf : fetches (fst (fetch_games e cfg))
               = fetches (fst (fetch_loop e cfg start end_ start []))).
  { unfold fetch_games. rewrite Hs, He.
    unfold lift, print, emit, ret, bind.
    destruct (fetch_loop e cfg start end_ start []) as [tl [ex | games]];
      cbn; [reflexivity |].
    unfold fetches. rewrite omap_app. cbn. now rewrite app_nil_r. }
  exists k. rewrite fetch_games_effects, Hf, Hk.
  repeat split; [lia | assumption | assumption].
Qed.

Lemma attempts_are_consecutive_months_witness :
  let e := sample_env fetch_january aggregate_ok None None in
  let cfg := config_for "2026-01-15" "2026-02-10" in
  datetime.strptime (START_DATE cfg) = inr (datetime.mk 2026 1 15 0 0 0 0)
  /\ datetime.strptime (END_DATE cfg) = inr (datetime.mk 2026 2 10 0 0 0 0)
  /\ exists k,
       fetches (fst (fetch_games e cfg)) = month_range 2026 1 k
       /\ (1 <= k)%nat.
Proof.
  cbv zeta.
  destruct (attempts_are_consecutive_months
              (sample_env fetch_january aggregate_ok None None)
              (config_for "2026-01-15" "2026-02-10")
              (datetime.mk 2026 1 15 0 0 0 0) (datetime.mk 2026 2 10 0 0 0 0)
              eq_refl eq_refl) as (k & Hk & _ & _ & Hpos & _).
  split; [reflexivity |]. split; [reflexivity |].
  exists k. split; [exact Hk | exact (Hpos eq_refl)].
Defined.

(** ** Runs that end before the analysis *)

Lemma bind_raises_at {A B} (m : M A) (k : A -> M B) t ex :
  m = (t, inl ex) -> bind m k = (t, inl ex).
Proof. intros ->. reflexivity. Qed.

Lemma script_when_fetch_raises e cfg t0 t1 ex :
  initialize e cfg = (t0, inr tt) ->
  fetch_games e cfg = (t1, inl ex) ->
  script e cfg
  = (t0 ++ t1 ++ [EPrint (nl +:+ "✗ Error: " +:+ exn_str ex); ETraceback ex],
     1).
Proof.
  intros Hi Hf.
  rewrite (script_of_main e cfg (t0 ++ t1) (inl ex)).
  - now rewrite <- app_assoc.
  - unfold main. rewrite (bind_returns _ _ _ _ Hi), (bind_raises_at _ _ _ _ Hf).
    reflexivity.
Qed.

(** A range whose start is after its end is not an error: both dates
    parse, the loop body never runs, so no month is attempted, zero games
    are reported, and the run ends on the no-games path with the success
    line and exit status 0. *)
Theorem reversed_range_attempts_nothing e cfg start end_ t0 :
  initialize e cfg = (t0, inr tt) ->
  datetime.strptime (START_DATE cfg) = inr start ->
  datetime.strptime (END_DATE cfg) = inr end_ ->
  datetime.le start end_ = false ->
  script e cfg
  = (t0
     ++ [EPrint (nl +:+ "2. Fetching games for " +:+ USERNAME cfg +:+ " from "
                 +:+ START_DATE cfg +:+ " to " +:+ END_DATE cfg +:+ "...");
         EPrint (nl +:+ "   Total games fetched: " +:+ "0");
         EPrint (nl +:+ "✗ No games found. Exiting.");
         EPrint (nl +:+ "Success! File saved at: None")],
     0).
Proof.
  intros Hi Hs He Hle.
  assert (Hf : fetch_games e cfg
               = ([EPrint (nl +:+ "2. Fetching games for " +:+ USERNAME cfg
                           +:+ " from " +:+ START_DATE cfg +:+ " to "
                           +:+ END_DATE cfg +:+ "...");
                   EPrint (nl +:+ "   Total games fetched: " +:+ "0")],
                  inr [])).
  { unfold fetch_games. rewrite Hs, He.
    unfold lift, print, emit, bind. rewrite fetch_loop_while, Hle.
    reflexivity. }
  rewrite (script_without_games e cfg _ _ Hi Hf). reflexivity.
Qed.

Lemma reversed_range_attempts_nothing_witness :
  let e := sample_env fetch_january aggregate_ok None None in
  let cfg := config_for "2026-01-31" "2026-01-01" in
  snd (initialize e cfg) = inr tt
  /\ datetime.le (datetime.mk 2026 1 31 0 0 0 0) (datetime.mk 2026 1 1 0 0 0 0)
     = false
  /\ fetches (fst (script e cfg)) = []
  /\ snd (script e cfg) = 0.
Proof.
  cbv zeta.
  pose (e := sample_env fetch_january aggregate_ok None None).
  pose (cfg := config_for "2026-01-31" "2026-01-01").
  assert (Hi : initialize e cfg = (fst (initialize e cfg), inr tt))
    by (vm_compute; reflexivity).
  pose proof (reversed_range_attempts_nothing e cfg
                (datetime.mk 2026 1 31 0 0 0 0) (datetime.mk 2026 1 1 0 0 0 0)
                _ Hi eq_refl eq_refl eq_refl) as Hrun.
  split; [exact (f_equal snd Hi) |]. split; [reflexivity |]. split.
  - etransitivity; [exact (f_equal (fun r => fetches (fst r)) Hrun) |].
    vm_compute. reflexivity.
  - exact (f_equal snd Hrun).
Defined.

(** The two dates are parsed outside any handler of [main]: when the start
    date, or else the end date, does not parse, the services have been
    constructed, the fetch announcement printed, and the run ends there with
    the error line, the traceback and exit status 1; no fetch is attempted. *)
Theorem unparsable_date_aborts_before_fetching e cfg t0 ex :
  initialize e cfg = (t0, inr tt) ->
  datetime.strptime (START_DATE cfg) = inl ex
  \/ (exists start,
        datetime.strptime (START_DATE cfg) = inr start
        /\ datetime.strptime (END_DATE cfg) = inl ex) ->
  script e cfg
  = (t0
     ++ [EPrint (nl +:+ "2. Fetching games for " +:+ USERNAME cfg +:+ " from "
                 +:+ START_DATE cfg +:+ " to " +:+ END_DATE cfg +:+ "...");
         EPrint (nl +:+ "✗ Error: " +:+ exn_str ex);
         ETraceback ex],
     1)
  /\ fetches (fst (script e cfg)) = [].
Proof.
  intros Hi Hbad.
  assert (Hf : fetch_games e cfg
               = ([EPrint (nl +:+ "2. Fetching games for " +:+ USERNAME cfg
                           +:+ " from " +:+ START_DATE cfg +:+ " to "
                           +:+ END_DATE cfg +:+ "...")],
                  inl ex)).
  { unfold fetch_games.
    destruct Hbad as [Hs | (start & Hs & He)]; rewrite Hs; try rewrite He;
      reflexivity. }
  pose proof (script_when_fetch_raises e cfg _ _ _ Hi Hf) as Hrun.
  split; [exact Hrun |].
  rewrite Hrun. cbn [fst]. rewrite fetches_app.
  pose proof (initialize_quiet e cfg) as (Hq & _). rewrite Hi in Hq.
  cbn [fst] in Hq. rewrite Hq. reflexivity.
Qed.

Lemma unparsable_date_aborts_before_fetching_witness :
  let e := sample_env fetch_january aggregate_ok None None in
  let cfg := config_for "2026-02-30" "2026-03-31" in
  snd (initialize e cfg) = inr tt
  /\ datetime.strptime (START_DATE cfg)
     = inl (ValueError "day is out of range for month")
  /\ snd (script e cfg) = 1.
Proof.
  cbv zeta.
  pose (e := sample_env fetch_january aggregate_ok None None).
  pose (cfg := config_for "2026-02-30" "2026-03-31").
  assert (Hi : initialize e cfg = (fst (initialize e cfg), inr tt))
    by (vm_compute; reflexivity).
  split; [exact (f_equal snd Hi) |]. split; [reflexivity |].
  exact (f_equal snd
           (proj1 (unparsable_date_aborts_before_fetching e cfg _
                     (ValueError "day is out of range for month") Hi
                     (or_introl eq_refl)))).
Defined.

(** When constructing a service raises, the run stops there with the error
    line, the traceback and exit status 1: after a failing [ChessService()]
    the analytics service is not constructed, and after a failing
    [AnalyticsService(...)] nothing is fetched. *)
Theorem service_failure_aborts_the_run e cfg ex :
  let opening :=
    [EPrint banner;
     EPrint "STOCKFISH MISTAKE ANALYSIS (Standalone Script)";
     EPrint banner;
     EPrint (nl +:+ "1. Initializing services...")] in
  let closing :=
    [EPrint (nl +:+ "✗ Error: " +:+ exn_str ex); ETraceback ex] in
  (chess_service_init e = Some ex ->
   script e cfg = (opening ++ [ENewChessService] ++ closing, 1))
  /\ (chess_service_init e = None ->
      analytics_service_init e (STOCKFISH_PATH cfg) 12 true = Some ex ->
      script e cfg
      = (opening
         ++ [ENewChessService;
             ENewAnalyticsService (STOCKFISH_PATH cfg) 12 true]
         ++ closing, 1)).
Proof.
  cbv zeta. split.
  - intros Hc. rewrite app_assoc.
    apply (script_of_main e cfg _ (inl ex)).
    unfold main, initialize, construct, call. rewrite Hc. reflexivity.
  - intros Hc Ha. rewrite app_assoc.
    apply (script_of_main e cfg _ (inl ex)).
    unfold main, initialize, construct, call. rewrite Hc, Ha. reflexivity.
Qed.

Lemma service_failure_aborts_the_run_witness :
  let e := env_without_engine in
  chess_service_init e = None
  /\ analytics_service_init e (STOCKFISH_PATH shipped_config) 12 true
     = Some (Exn "FileNotFoundError" "stockfish not found")
  /\ fetches (fst (script e shipped_config)) = []
  /\ snd (script e shipped_config) = 1.
Proof.
  cbv zeta. split; [reflexivity |]. split; [reflexivity |].
  split; [vm_compute; reflexivity |].
  exact (f_equal snd
           (proj2 (service_failure_aborts_the_run env_without_engine
                     shipped_config
                     (Exn "FileNotFoundError" "stockfish not found"))
              eq_refl eq_refl)).
Defined.

(** ** The summary *)

Lemma show_stage_without_moves e (analysis : gmap string value) stage :
  stage_without_moves analysis stage ->
  show_stage e (VDict analysis) stage = ([], inr tt).
Proof.
  unfold show_stage, dict_get.
  intros [Hnone | (stage_data & Hsome & [Hmoves | (n & Hmoves & Hn)])].
  - rewrite Hnone. unfold lift, bind. cbn [from_option id].
    rewrite lookup_empty. reflexivity.
  - rewrite Hsome. unfold lift, bind. cbn [from_option id].
    rewrite Hmoves. reflexivity.
  - rewrite Hsome. unfold lift, bind. cbn [from_option id].
    rewrite Hmoves. cbn [from_option id gt_zero].
    replace (0 <? n) with false by lia. reflexivity.
Qed.

(** A stage of the analysis result that is absent, or whose 'total_moves'
    is absent or not positive, is passed over without output and without an
    exception: when that holds of all three stages, the summary prints its
    heading and nothing else. *)
Theorem summary_skips_stages_without_moves e (analysis : gmap string value) :
  stage_without_moves analysis "early" ->
  stage_without_moves analysis "middle" ->
  stage_without_moves analysis "endgame" ->
  display_summary e (VDict analysis)
  = ([EPrint (nl +:+ "4. Analysis Summary:")], inr tt).
Proof.
  intros He Hm Hg. unfold display_summary. cbn [for_each].
  rewrite (show_stage_without_moves e analysis _ He),
    (show_stage_without_moves e analysis _ Hm),
    (show_stage_without_moves e analysis _ Hg).
  reflexivity.
Qed.

Lemma summary_skips_stages_without_moves_witness :
  let analysis : gmap string value :=
    <["early" := VDict (<["total_moves" := VInt 0]> ∅)]>
    (<["middle" := VDict ∅]> ∅) in
  stage_without_moves analysis "early"
  /\ stage_without_moves analysis "middle"
  /\ stage_without_moves analysis "endgame"
  /\ display_summary (sample_env fetch_january aggregate_ok None None)
       (VDict analysis)
     = ([EPrint (nl +:+ "4. Analysis Summary:")], inr tt).
Proof.
  cbv zeta.
  pose (analysis := (<["early" := VDict (<["total_moves" := VInt 0]> ∅)]>
                     (<["middle" := VDict ∅]> ∅)) : gmap string value).
  assert (He : stage_without_moves analysis "early").
  { right. exists (<["total_moves" := VInt 0]> ∅). split; [reflexivity |].
    right. exists 0. split; [reflexivity | lia]. }
  assert (Hm : stage_without_moves analysis "middle").
  { right. exists ∅. split; [reflexivity |]. left. reflexivity. }
  assert (Hg : stage_without_moves analysis "endgame")
    by (left; reflexivity).
  split; [exact He |]. split; [exact Hm |]. split; [exact Hg |].
  exact (summary_skips_stages_without_moves _ analysis He Hm Hg).
Defined.

(** ** What reaches the disk, and when *)

Section Disk.

Variable e : env.
Variable cfg : config.

(** What the part after the guard does besides printing, step by step. *)
Lemma analyse_and_save_steps all_games :
  effects (fst (analyse_and_save e cfg all_games))
  = EAggregate all_games (USERNAME cfg)
    :: match run_analysis e cfg all_games with
       | (_, inr mistake_analysis) =>
           match display_summary e mistake_analysis with
           | (_, inr _) =>
               effects (fst (save e cfg mistake_analysis all_games))
           | (_, inl _) => []
           end
       | (_, inl _) => []
       end.
Proof.
  unfold analyse_and_save. rewrite bind_unfold.
  pose proof (run_analysis_effects e cfg all_games) as Ha.
  destruct (run_analysis e cfg all_games) as [ta [ex | ma]];
    cbn [fst snd] in *; [now rewrite Ha |].
  rewrite bind_unfold.
  pose proof (display_summary_quiet e ma) as Hd.
  destruct (display_summary e ma) as [td [ex | []]]; cbn [fst snd] in *.
  { rewrite effects_app, Ha, Hd. reflexivity. }
  rewrite bind_unfold.
  destruct (save e cfg ma all_games) as [ts [ex | path]]; cbn [fst snd ret];
    rewrite !effects_app, ?app_nil_r, Ha, Hd; reflexivity.
Qed.

Lemma script_opened_dumped t0 t1 all_games :
  initialize e cfg = (t0, inr tt) ->
  fetch_games e cfg = (t1, inr all_games) ->
  all_games <> [] ->
  opened (fst (script e cfg))
  = opened (List.tl (effects (fst (analyse_and_save e cfg all_games))))
  /\ dumped (fst (script e cfg))
     = dumped (List.tl (effects (fst (analyse_and_save e cfg all_games)))).
Proof.
  intros Hi Hf Hne.
  destruct (main_with_games e cfg t0 t1 all_games Hi Hf Hne)
    as (_ & _ & _ & rest & He & Ho & Hd & _).
  unfold opened, dumped in *. rewrite !script_readings by reflexivity.
  rewrite Ho, Hd, He. split; reflexivity.
Qed.

End Disk.

(** The output file is opened only after the analysis and the summary have
    both completed: if a run opens a file, then it is the output path, the
    fetch phase found games, the analysis phase returned a result, the
    summary of that result completed, and the open did not raise. *)
Theorem file_is_opened_only_after_the_summary e cfg path :
  path ∈ opened (fst (script e cfg)) ->
  exists t1 all_games ta mistake_analysis td,
    fetch_games e cfg = (t1, inr all_games)
    /\ all_games <> []
    /\ run_analysis e cfg all_games = (ta, inr mistake_analysis)
    /\ display_summary e mistake_analysis = (td, inr tt)
    /\ path = output_path e cfg
    /\ open_w e path = None.
Proof.
  intros Hin.
  destruct (run_cases e cfg)
    as [(_ & Ho & _) | (t0 & t1 & all_games & Hi & Hf & Hne)].
  { unfold opened in *. rewrite script_readings in Hin by reflexivity.
    rewrite Ho in Hin. inversion Hin. }
  destruct (script_opened_dumped e cfg t0 t1 all_games Hi Hf Hne) as [Ho _].
  rewrite Ho, analyse_and_save_steps in Hin. cbn [List.tl] in Hin.
  destruct (run_analysis e cfg all_games) as [ta [ex | ma]] eqn:Hr;
    [inversion Hin |].
  destruct (display_summary e ma) as [td [ex | []]] eqn:Hd; [inversion Hin |].
  rewrite save_effects in Hin. cbv zeta in Hin.
  destruct (open_w e (output_path e cfg)) eqn:Hopen; [inversion Hin |].
  assert (path = output_path e cfg) as ->.
  { destruct (json_dump e (output_path e cfg) _); cbn in Hin;
      now apply list_elem_of_singleton in Hin. }
  exists t1, all_games, ta, ma, td. auto 10.
Qed.

Lemma file_is_opened_only_after_the_summary_witness :
  let e := sample_env fetch_january aggregate_ok None None in
  output_path e shipped_config ∈ opened (fst (script e shipped_config))
  /\ open_w e (output_path e shipped_config) = None.
Proof.
  cbv zeta.
  pose (e := sample_env fetch_january aggregate_ok None None).
  assert (Hin : output_path e shipped_config
                ∈ opened (fst (script e shipped_config)))
    by (vm_compute; apply list_elem_of_here).
  split; [exact Hin |].
  destruct (file_is_opened_only_after_the_summary e shipped_config _ Hin)
    as (t1 & all_games & ta & ma & td & _ & _ & _ & _ & _ & Hopen).
  exact Hopen.
Defined.

(** ** Analysis results the script cannot summarise *)

Section Malformed.

Variable e : env.
Variable cfg : config.
Variables t0 t1 : list event.
Variable all_games : list value.
Hypothesis Hinit : initialize e cfg = (t0, inr tt).
Hypothesis Hfetch : fetch_games e cfg = (t1, inr all_games).
Hypothesis Hgames : all_games <> [].




End Malformed.



Lemma last_of_two {A} (l : list A) (a b : A) : last (l ++ [a; b]) = Some b.
Proof.
  change [a; b] with ([a] ++ [b]). now rewrite app_assoc, last_snoc.
Qed.

(** ** A write that fails *)

(** Once the analysis and the summary have completed: if opening the
    output file raises, no file is opened and nothing is dumped; if the open
    succeeds and the dump raises, the file has been opened for writing (so
    created or truncated) but no object was dumped to it.  In both cases the
    run ends with the error line, the traceback and exit status 1. *)
Theorem failed_write_exits_with_one
    e cfg t0 t1 all_games ta mistake_analysis td ex :
  initialize e cfg = (t0, inr tt) ->
  fetch_games e cfg = (t1, inr all_games) ->
  all_games <> [] ->
  run_analysis e cfg all_games = (ta, inr mistake_analysis) ->
  display_summary e mistake_analysis = (td, inr tt) ->
  let path := output_path e cfg in
  let data := VDict (output_data e cfg mistake_analysis all_games) in
  (open_w e path = Some ex ->
   snd (script e cfg) = 1
   /\ opened (fst (script e cfg)) = []
   /\ dumped (fst (script e cfg)) = []
   /\ last (fst (script e cfg)) = Some (ETraceback ex))
  /\ (open_w e path = None ->
      json_dump e path data = Some ex ->
      snd (script e cfg) = 1
      /\ opened (fst (script e cfg)) = [path]
      /\ dumped (fst (script e cfg)) = []
      /\ last (fst (script e cfg)) = Some (ETraceback ex)).
Proof.
  intros Hi Hf Hne Hr Hd path data.
  destruct (main_with_games e cfg t0 t1 all_games Hi Hf Hne) as (Hmain & _).
  destruct (script_opened_dumped e cfg t0 t1 all_games Hi Hf Hne) as [Ho Hdu].
  rewrite analyse_and_save_steps, Hr, Hd, save_effects in Ho, Hdu.
  cbv zeta in Ho, Hdu. cbn [List.tl] in Ho, Hdu.
  assert (Hres : snd (analyse_and_save e cfg all_games)
                 = match snd (save e cfg mistake_analysis all_games) with
                   | inl ex' => inl ex'
                   | inr p => inr (Some p)
                   end).
  { unfold analyse_and_save.
    rewrite (bind_returns _ _ _ _ Hr), (bind_returns _ _ _ _ Hd).
    cbn [fst snd]. rewrite bind_unfold.
    destruct (snd (save e cfg mistake_analysis all_games)); reflexivity. }
  rewrite save_result in Hres. cbv zeta in Hres.
  fold path in Ho, Hdu, Hres. fold data in Ho, Hdu, Hres.
  pose proof (script_of_main e cfg _ _ Hmain) as Hs.
  split.
  - intros Hopen. rewrite Hopen in *. rewrite Hres in Hs.
    rewrite Ho, Hdu, Hs. cbn [fst snd].
    repeat split. apply last_of_two.
  - intros Hopen Hdump. rewrite Hopen, Hdump in *. rewrite Hres in Hs.
    rewrite Ho, Hdu, Hs. cbn [fst snd].
    repeat split. apply last_of_two.
Qed.

Lemma failed_write_exits_with_one_witness :
  let e := sample_env fetch_january aggregate_ok None
             (Some (Exn "OSError" "No space left on device")) in
  snd (initialize e shipped_config) = inr tt
  /\ snd (fetch_games e shipped_config) = inr [game_a; game_b]
  /\ snd (run_analysis e shipped_config [game_a; game_b]) = inr empty_analysis
  /\ snd (display_summary e empty_analysis) = inr tt
  /\ open_w e (output_path e shipped_config) = None
  /\ opened (fst (script e shipped_config)) = [output_path e shipped_config]
  /\ dumped (fst (script e shipped_config)) = []
  /\ snd (script e shipped_config) = 1.
Proof.
  cbv zeta.
  pose (e := sample_env fetch_january aggregate_ok None
               (Some (Exn "OSError" "No space left on device"))).
  assert (Hi : initialize e shipped_config
               = (fst (initialize e shipped_config), inr tt))
    by (vm_compute; reflexivity).
  assert (Hf : fetch_games e shipped_config
               = (fst (fetch_games e shipped_config), inr [game_a; game_b]))
    by (vm_compute; reflexivity).
  assert (Hr : run_analysis e shipped_config [game_a; game_b]
               = (fst (run_analysis e shipped_config [game_a; game_b]),
                  inr empty_analysis))
    by (vm_compute; reflexivity).
  assert (Hd : display_summary e empty_analysis
               = (fst (display_summary e empty_analysis), inr tt))
    by (vm_compute; reflexivity).
  assert (Hne : [game_a; game_b] <> []) by discriminate.
  destruct (proj2 (failed_write_exits_with_one e shipped_config _ _ _ _ _ _
                     (Exn "OSError" "No space left on device")
                     Hi Hf Hne Hr Hd) eq_refl eq_refl)
    as (Hs & Ho & Hdu & _).
  split; [exact (f_equal snd Hi) |]. split; [exact (f_equal snd Hf) |].
  split; [exact (f_equal snd Hr) |]. split; [exact (f_equal snd Hd) |].
  split; [reflexivity |]. auto.
Defined.

(** ** What the exit status tells *)

(** The exit status is 0 or 1.  It is 1 exactly when [main] raised, and
    then the run's last event is the traceback of that exception.  Status 0
    does not mean that a file exists: either the fetch phase found no games
    and nothing was opened or written, or games were found and the output
    object was dumped, once, to the output path. *)
Theorem exit_status_cases e cfg :
  (snd (script e cfg) = 0 \/ snd (script e cfg) = 1)
  /\ (snd (script e cfg) = 1
      <-> exists ex, snd (main e cfg) = inl ex
                     /\ last (fst (script e cfg)) = Some (ETraceback ex))
  /\ (snd (script e cfg) = 0 ->
      (exists t1,
          fetch_games e cfg = (t1, inr [])
          /\ opened (fst (script e cfg)) = []
          /\ dumped (fst (script e cfg)) = [])
      \/ (exists t1 all_games mistake_analysis,
            fetch_games e cfg = (t1, inr all_games)
            /\ all_games <> []
            /\ aggregate_mistake_analysis e all_games (USERNAME cfg)
               = inr mistake_analysis
            /\ dumped (fst (script e cfg))
               = [(output_path e cfg,
                   VDict (output_data e cfg mistake_analysis all_games))])).
Proof.
  split; [| split].
  - unfold script. destruct (main e cfg) as [t [ex | r]]; auto.
  - unfold script. destruct (main e cfg) as [t [ex | r]]; cbn [fst snd].
    + split; [| reflexivity]. intros _. exists ex.
      split; [reflexivity |].
      apply last_of_two.
    + split; [discriminate | intros (ex & Hex & _); discriminate].
  - intros Hzero.
    assert (Hret : exists t r, main e cfg = (t, inr r)).
    { unfold script in Hzero.
      destruct (main e cfg) as [t [ex | r]]; [discriminate | eauto]. }
    destruct Hret as (t & r & Hmain).
    pose proof (main_cases e cfg) as Hpath. rewrite Hmain in Hpath.
    inversion Hpath as [| | t0 t1 Hi Hf | t0 t1 game games t2 r' Hi Hf Ha];
      subst.
    + left. exists t1. split; [assumption |].
      destruct (main_quiet_without_games e cfg) as (_ & Ho & Hd).
      { intros ? ? ? ? _ Hf'. rewrite Hf in Hf'. discriminate. }
      unfold opened, dumped in *. rewrite !script_readings by reflexivity.
      auto.
    + right.
      destruct (analyse_and_save_returns e cfg _ _ _ Ha) as (ma & Hma & _ & He).
      exists t1, (game :: games), ma.
      split; [assumption |]. split; [discriminate |]. split; [assumption |].
      destruct (script_opened_dumped e cfg t0 t1 (game :: games) Hi Hf)
        as [_ Hd]; [discriminate |].
      rewrite Hd, Ha. cbn [fst]. rewrite He. reflexivity.
Qed.

Lemma exit_status_cases_witness :
  let e := sample_env fetch_nothing aggregate_ok None None in
  snd (script e shipped_config) = 0
  /\ ((exists t1,
          fetch_games e shipped_config = (t1, inr [])
          /\ opened (fst (script e shipped_config)) = []
          /\ dumped (fst (script e shipped_config)) = [])
      \/ (exists t1 all_games mistake_analysis,
            fetch_games e shipped_config = (t1, inr all_games)
            /\ all_games <> []
            /\ aggregate_mistake_analysis e all_games "jay_fh"
               = inr mistake_analysis
            /\ dumped (fst (script e shipped_config))
               = [(output_path e shipped_config,
                   VDict (output_data e shipped_config mistake_analysis
                            all_games))])).
Proof.
  cbv zeta.
  assert (Hz : snd (script (sample_env fetch_nothing aggregate_ok None None)
                      shipped_config) = 0) by (vm_compute; reflexivity).
  split; [exact Hz |].
  exact (proj2 (proj2 (exit_status_cases
                         (sample_env fetch_nothing aggregate_ok None None)
                         shipped_config)) Hz).
Defined.
